(** * Offline-first synchronisation engine of the shop manager

    A shallow embedding of the application component ([App], with its
    handlers [handleSync], [handleSaveItem], [handleSaleSubmit],
    [executeDelete], [handleOnline], [handleOffline]) and of the types of
    the type module ([SheetName], [SyncQueueItem], [NetworkStatus],
    [AppNotification]), followed by the properties of the synchronisation
    engine.

    Conventions of the embedding.
    - A record of a collection is a JavaScript object: a finite map from
      field names to values.  Object spread is map union, a field read of
      a missing field is [undefined].
    - JavaScript numbers are modelled on the integers: [VNum z] is an
      integer-valued number and [VNaN] is not-a-number.  Fractions,
      infinities and the loss of precision beyond 2^53 are outside the
      model.
    - React state is one record, [AppState]; a handler is a function on
      it.  A handler runs to its end without another handler running in
      between, so the value a closure captured and the current value of a
      state variable are the same.  A functional update
      [setX(prev => f(prev))] is applied where it is called.
    - Time is not modelled: [delay] is dropped, and a [setTimeout] only
      records its callback in the list [timers].  What the clock and the
      random source return is an argument of the handler that reads
      them.
    - The remote endpoint is a state machine of an arbitrary state type;
      a call either resolves or rejects. *)

From stdpp Require Import gmap strings list fin_maps pretty.

(** ** JavaScript values and objects *)

Inductive Value : Type :=
  | VUndef
  | VNull
  | VBool (b : bool)
  | VNum (z : Z)
  | VNaN
  | VStr (s : string).

#[global] Instance Value_eq_dec : EqDecision Value.
Proof. solve_decision. Defined.

(** An object literal; [AppItem] of the type module is such an object. *)
Abbreviation Item := (gmap string Value).

(** [o.k]: a missing property reads as [undefined]. *)
Definition get (o : Item) (k : string) : Value := default VUndef (o !! k).

(** ToBoolean. *)
Definition truthy (v : Value) : bool :=
  match v with
  | VUndef | VNull | VNaN => false
  | VBool b => b
  | VNum z => negb (Z.eqb z 0)
  | VStr s => negb (String.eqb s "")
  end.

(** [a || b]. *)
Definition js_or (a b : Value) : Value := if truthy a then a else b.

(** [a === b]: not-a-number differs from everything, itself included. *)
Definition strict_eq (a b : Value) : bool :=
  match a, b with
  | VNaN, _ | _, VNaN => false
  | _, _ => bool_decide (a = b)
  end.

Definition digit_of (a : Ascii.ascii) : option Z :=
  let n := Z.of_nat (Ascii.nat_of_ascii a) in
  if (Z.leb 48 n && Z.leb n 57)%bool then Some (n - 48)%Z else None.

Fixpoint parse_digits (acc : Z) (s : string) : option Z :=
  match s with
  | EmptyString => Some acc
  | String a s' =>
      match digit_of a with
      | Some d => parse_digits (10 * acc + d)%Z s'
      | None => None
      end
  end.

(** The numeric value of a string, for the plain decimal spellings of an
    integer; the other spellings JavaScript accepts (white space,
    fractions, exponents, other bases) are outside the integer model and
    read as not-a-number here. *)
Definition StringToNumber (s : string) : Value :=
  (* 45 and 43 are the codes of the minus and the plus sign *)
  match s with
  | EmptyString => VNum 0
  | String a s' =>
      if (Nat.eqb (Ascii.nat_of_ascii a) 45 && negb (String.eqb s' ""))%bool then
        match parse_digits 0 s' with Some z => VNum (- z) | None => VNaN end
      else if (Nat.eqb (Ascii.nat_of_ascii a) 43 && negb (String.eqb s' ""))%bool then
        match parse_digits 0 s' with Some z => VNum z | None => VNaN end
      else
        match parse_digits 0 s with Some z => VNum z | None => VNaN end
  end.

(** [Number(v)], the conversion every arithmetic operator applies. *)
Definition Number (v : Value) : Value :=
  match v with
  | VUndef => VNaN
  | VNull => VNum 0
  | VBool b => VNum (if b then 1 else 0)
  | VNum z => VNum z
  | VNaN => VNaN
  | VStr s => StringToNumber s
  end.

(** [a + b] on two numbers. *)
Definition num_add (a b : Value) : Value :=
  match a, b with
  | VNum x, VNum y => VNum (x + y)
  | _, _ => VNaN
  end.

(** [a - b]. *)
Definition js_sub (a b : Value) : Value :=
  match Number a, Number b with
  | VNum x, VNum y => VNum (x - y)
  | _, _ => VNaN
  end.

(** [Math.max(0, v)]. *)
Definition Math_max0 (v : Value) : Value :=
  match Number v with
  | VNum x => VNum (Z.max 0 x)
  | _ => VNaN
  end.

(** [n.toString()] of an integer-valued number. *)
Definition toString (n : Z) : string := pretty n.

(** ** The type module *)

Inductive SheetName : Type := Products | Sales | Expenses | Customers.

#[global] Instance SheetName_eq_dec : EqDecision SheetName.
Proof. solve_decision. Defined.

Inductive Action : Type := ADD | UPDATE | DELETE.

#[global] Instance Action_eq_dec : EqDecision Action.
Proof. solve_decision. Defined.

(** The interface declares [id : string]; the handlers store whatever the
    [id] property of the payload holds, hence a [Value]. *)
Record SyncQueueItem : Type := mkSyncQueueItem {
  q_id : Value;
  action : Action;
  sheet : SheetName;
  payload : Item;
  timestamp : Z
}.

#[global] Instance SyncQueueItem_eq_dec : EqDecision SyncQueueItem.
Proof. solve_decision. Defined.

Inductive NetworkStatus : Type := ONLINE | OFFLINE | SYNCING.

#[global] Instance NetworkStatus_eq_dec : EqDecision NetworkStatus.
Proof. solve_decision. Defined.

Inductive NotificationType : Type := error | warning | info | success.

#[global] Instance NotificationType_eq_dec : EqDecision NotificationType.
Proof. solve_decision. Defined.

Record AppNotification : Type := mkAppNotification {
  n_id : string;
  n_type : NotificationType;
  message : string
}.

Definition sheet_text (s : SheetName) : string :=
  match s with
  | Products => "Products"
  | Sales => "Sales"
  | Expenses => "Expenses"
  | Customers => "Customers"
  end.

Definition action_text (a : Action) : string :=
  match a with
  | ADD => "ADD"
  | UPDATE => "UPDATE"
  | DELETE => "DELETE"
  end.

(** ** The constants module: the keys of the durable store *)

Inductive StorageKey : Type := PRODUCTS | SALES | EXPENSES | CUSTOMERS.

(** The durable store: one slot per collection key and one for the key
    of the mutation queue. *)
Record LocalStorage : Type := mkLocalStorage {
  gs_products : list Item;
  gs_sales : list Item;
  gs_expenses : list Item;
  gs_customers : list Item;
  gs_app_sync_queue : list SyncQueueItem
}.

(** ** The state of the application component *)

Record DeleteConfirmation : Type := mkDeleteConfirmation {
  isOpen : bool;
  dc_id : option string;
  dc_sheet : option SheetName
}.

(** What a [setTimeout] of the component will run when it fires. *)
Inductive TimerCallback : Type :=
  | CallHandleSync (force : bool) (targetSheets : option (list SheetName))
  | CallHandleSyncUnlessInitialized
  | CallDismissNotification (id : string)
  | CallHideSyncSuccess.

(** The [useState] cells and the [useRef] cell of [App], the browser's
    [navigator.onLine] flag, the durable store and the pending timers.
    [notificationSeq] counts the identifiers [addNotification] has drawn
    from the clock and the random source. *)
Record AppState : Type := mkAppState {
  activeTab : SheetName;
  status : NetworkStatus;
  editingItem : option Item;
  deleteConfirmation : DeleteConfirmation;
  queueCount : nat;
  showSyncSuccess : bool;
  notifications : list AppNotification;
  isInitialized : bool;
  products : list Item;
  sales : list Item;
  expenses : list Item;
  customers : list Item;
  navigator_onLine : bool;
  localStorage : LocalStorage;
  timers : list (Z * TimerCallback);
  notificationSeq : nat
}.

Definition setStatus (v : NetworkStatus) (st : AppState) : AppState :=
  mkAppState (activeTab st) v (editingItem st) (deleteConfirmation st)
    (queueCount st) (showSyncSuccess st) (notifications st) (isInitialized st)
    (products st) (sales st) (expenses st) (customers st)
    (navigator_onLine st) (localStorage st) (timers st) (notificationSeq st).

Definition setQueueCount (v : nat) (st : AppState) : AppState :=
  mkAppState (activeTab st) (status st) (editingItem st) (deleteConfirmation st)
    v (showSyncSuccess st) (notifications st) (isInitialized st)
    (products st) (sales st) (expenses st) (customers st)
    (navigator_onLine st) (localStorage st) (timers st) (notificationSeq st).

Definition setShowSyncSuccess (v : bool) (st : AppState) : AppState :=
  mkAppState (activeTab st) (status st) (editingItem st) (deleteConfirmation st)
    (queueCount st) v (notifications st) (isInitialized st)
    (products st) (sales st) (expenses st) (customers st)
    (navigator_onLine st) (localStorage st) (timers st) (notificationSeq st).

(** [setNotifications(prev => f(prev))]. *)
Definition setNotifications (f : list AppNotification → list AppNotification)
    (st : AppState) : AppState :=
  mkAppState (activeTab st) (status st) (editingItem st) (deleteConfirmation st)
    (queueCount st) (showSyncSuccess st) (f (notifications st)) (isInitialized st)
    (products st) (sales st) (expenses st) (customers st)
    (navigator_onLine st) (localStorage st) (timers st) (notificationSeq st).

Definition setIsInitialized (v : bool) (st : AppState) : AppState :=
  mkAppState (activeTab st) (status st) (editingItem st) (deleteConfirmation st)
    (queueCount st) (showSyncSuccess st) (notifications st) v
    (products st) (sales st) (expenses st) (customers st)
    (navigator_onLine st) (localStorage st) (timers st) (notificationSeq st).

Definition setProducts (v : list Item) (st : AppState) : AppState :=
  mkAppState (activeTab st) (status st) (editingItem st) (deleteConfirmation st)
    (queueCount st) (showSyncSuccess st) (notifications st) (isInitialized st)
    v (sales st) (expenses st) (customers st)
    (navigator_onLine st) (localStorage st) (timers st) (notificationSeq st).

Definition setSales (v : list Item) (st : AppState) : AppState :=
  mkAppState (activeTab st) (status st) (editingItem st) (deleteConfirmation st)
    (queueCount st) (showSyncSuccess st) (notifications st) (isInitialized st)
    (products st) v (expenses st) (customers st)
    (navigator_onLine st) (localStorage st) (timers st) (notificationSeq st).

Definition setExpenses (v : list Item) (st : AppState) : AppState :=
  mkAppState (activeTab st) (status st) (editingItem st) (deleteConfirmation st)
    (queueCount st) (showSyncSuccess st) (notifications st) (isInitialized st)
    (products st) (sales st) v (customers st)
    (navigator_onLine st) (localStorage st) (timers st) (notificationSeq st).

Definition setCustomers (v : list Item) (st : AppState) : AppState :=
  mkAppState (activeTab st) (status st) (editingItem st) (deleteConfirmation st)
    (queueCount st) (showSyncSuccess st) (notifications st) (isInitialized st)
    (products st) (sales st) (expenses st) v
    (navigator_onLine st) (localStorage st) (timers st) (notificationSeq st).

(** A write to the durable store. *)
Definition onStorage (f : LocalStorage → LocalStorage) (st : AppState) : AppState :=
  mkAppState (activeTab st) (status st) (editingItem st) (deleteConfirmation st)
    (queueCount st) (showSyncSuccess st) (notifications st) (isInitialized st)
    (products st) (sales st) (expenses st) (customers st)
    (navigator_onLine st) (f (localStorage st)) (timers st) (notificationSeq st).

(** [setTimeout(callback, ms)]. *)
Definition setTimeout (callback : TimerCallback) (ms : Z) (st : AppState) : AppState :=
  mkAppState (activeTab st) (status st) (editingItem st) (deleteConfirmation st)
    (queueCount st) (showSyncSuccess st) (notifications st) (isInitialized st)
    (products st) (sales st) (expenses st) (customers st)
    (navigator_onLine st) (localStorage st) (timers st ++ [(ms, callback)])
    (notificationSeq st).

(** The browser changes [navigator.onLine]. *)
Definition setNavigatorOnLine (v : bool) (st : AppState) : AppState :=
  mkAppState (activeTab st) (status st) (editingItem st) (deleteConfirmation st)
    (queueCount st) (showSyncSuccess st) (notifications st) (isInitialized st)
    (products st) (sales st) (expenses st) (customers st)
    v (localStorage st) (timers st) (notificationSeq st).

Definition setDeleteConfirmation (v : DeleteConfirmation) (st : AppState) : AppState :=
  mkAppState (activeTab st) (status st) (editingItem st) v
    (queueCount st) (showSyncSuccess st) (notifications st) (isInitialized st)
    (products st) (sales st) (expenses st) (customers st)
    (navigator_onLine st) (localStorage st) (timers st) (notificationSeq st).

Definition drawNotificationId (st : AppState) : AppState :=
  mkAppState (activeTab st) (status st) (editingItem st) (deleteConfirmation st)
    (queueCount st) (showSyncSuccess st) (notifications st) (isInitialized st)
    (products st) (sales st) (expenses st) (customers st)
    (navigator_onLine st) (localStorage st) (timers st) (S (notificationSeq st)).

(** ** The storage service

    The storage service is imported by the component and is not part of
    the sources at hand; its six functions are modelled from the
    specification of the Durable Store and of the Mutation Queue.  They
    are total: the specification lists no failure for the store. *)

(** Modelled from the spec: [getLocalCollection] of the storage service,
    the [loadCollection(key)] of the Durable Store interface. *)
Definition getLocalCollection (key : StorageKey) (ls : LocalStorage) : list Item :=
  match key with
  | PRODUCTS => gs_products ls
  | SALES => gs_sales ls
  | EXPENSES => gs_expenses ls
  | CUSTOMERS => gs_customers ls
  end.

(** Modelled from the spec: [saveLocalCollection] of the storage service,
    the [saveCollection(key, records)] of the Durable Store interface. *)
Definition saveLocalCollection (key : StorageKey) (data : list Item)
    (ls : LocalStorage) : LocalStorage :=
  match key with
  | PRODUCTS =>
      mkLocalStorage data (gs_sales ls) (gs_expenses ls) (gs_customers ls)
        (gs_app_sync_queue ls)
  | SALES =>
      mkLocalStorage (gs_products ls) data (gs_expenses ls) (gs_customers ls)
        (gs_app_sync_queue ls)
  | EXPENSES =>
      mkLocalStorage (gs_products ls) (gs_sales ls) data (gs_customers ls)
        (gs_app_sync_queue ls)
  | CUSTOMERS =>
      mkLocalStorage (gs_products ls) (gs_sales ls) (gs_expenses ls) data
        (gs_app_sync_queue ls)
  end.

(** Modelled from the spec: [getSyncQueue] of the storage service, the
    [loadQueue()] of the Durable Store interface. *)
Definition getSyncQueue (ls : LocalStorage) : list SyncQueueItem :=
  gs_app_sync_queue ls.

Definition saveQueue (queue : list SyncQueueItem) (ls : LocalStorage) : LocalStorage :=
  mkLocalStorage (gs_products ls) (gs_sales ls) (gs_expenses ls) (gs_customers ls)
    queue.

(** The key of a queue entry is its (collection, id) pair. *)
Definition same_key (a b : SyncQueueItem) : bool :=
  bool_decide (sheet a = sheet b) && strict_eq (q_id a) (q_id b).

Fixpoint merge_entry (item : SyncQueueItem) (queue : list SyncQueueItem)
    : list SyncQueueItem :=
  match queue with
  | [] => [item]
  | q :: rest =>
      if same_key q item then item :: rest else q :: merge_entry item rest
  end.

(** Modelled from the spec: [addToSyncQueue] of the storage service, the
    [enqueue(entry)] of the Mutation Queue: "if an entry for the same key
    exists, the new entry replaces it entirely (payload and action)";
    otherwise the entry joins the end of the ordered log.  The queue is
    persisted before the function returns. *)
Definition addToSyncQueue (item : SyncQueueItem) (ls : LocalStorage) : LocalStorage :=
  saveQueue (merge_entry item (getSyncQueue ls)) ls.

(** Modelled from the spec: [removeFromQueue] of the storage service, the
    [remove(id)] of the Mutation Queue.  The component passes the id of
    the entry and nothing else. *)
Definition removeFromQueue (id : Value) (ls : LocalStorage) : LocalStorage :=
  saveQueue (filter (λ q, strict_eq (q_id q) id = false) (getSyncQueue ls)) ls.

(** Modelled from the spec: [updateLocalItem] of the storage service:
    "replaces the record in place (id preserved, position preserved),
    persists"; it returns the collection it has written. *)
Definition updateLocalItem (key : StorageKey) (item : Item) (ls : LocalStorage)
    : LocalStorage * list Item :=
  let items :=
    (λ x, if strict_eq (get x "id") (get item "id") then item else x)
      <$> getLocalCollection key ls in
  (saveLocalCollection key items ls, items).

(** ** The mutation handlers of the component *)

(** [setX(prev => updateLocalItem(key, item))]: the durable collection is
    rewritten and the state variable receives what was written. *)
Definition setFromUpdateLocalItem (setter : list Item → AppState → AppState)
    (key : StorageKey) (item : Item) (st : AppState) : AppState :=
  let '(ls, items) := updateLocalItem key item (localStorage st) in
  setter items (onStorage (λ _, ls) st).

(** The readings of the clock in [handleSaveItem], one per reading site. *)
Record SaveClock : Type := mkSaveClock {
  idNow : Z;              (* Date.now() of the new id *)
  timestampNow : Z;       (* Date.now() of the new item's timestamp *)
  queueNow : Z;           (* Date.now() of the queue entry *)
  modifiedAt : string;    (* new Date().toISOString() *)
  lastPurchase : string   (* formatDateTime(new Date()) *)
}.

Definition handleSaveItem (clk : SaveClock) (data : Item) (st : AppState) : AppState :=
  let tab := activeTab st in
  let st1 :=
    match editingItem st with
    | Some editing =>
        (* UPDATE existing *)
        let updatedItem :=
          <["ModifiedAt" := VStr (modifiedAt clk)]>
            (<["ID" := js_or (get editing "ID") (get editing "id")]>
               (data ∪ editing)) in
        let updatedItem :=
          match tab with
          | Customers =>
              <["Email" := js_or (get data "Address") (get updatedItem "Address")]>
                updatedItem
          | _ => updatedItem
          end in
        let st :=
          match tab with
          | Products => setFromUpdateLocalItem setProducts PRODUCTS updatedItem st
          | Sales => setFromUpdateLocalItem setSales SALES updatedItem st
          | Expenses => setFromUpdateLocalItem setExpenses EXPENSES updatedItem st
          | Customers => setFromUpdateLocalItem setCustomers CUSTOMERS updatedItem st
          end in
        let queueItem :=
          mkSyncQueueItem (get updatedItem "id") UPDATE tab updatedItem (queueNow clk) in
        let st := onStorage (addToSyncQueue queueItem) st in
        setQueueCount (length (getSyncQueue (localStorage st))) st
    | None =>
        (* ADD new *)
        let id := toString (idNow clk) in
        let newItem : Item :=
          data ∪ <["id" := VStr id]>
                   (<["ID" := VStr id]>
                      (<["timestamp" := VNum (timestampNow clk)]> ∅)) in
        let newItem :=
          match tab with
          | Customers =>
              <["LastPurchase" := VStr (lastPurchase clk)]>
                (<["Email" := get data "Address"]> newItem)
          | _ => newItem
          end in
        let st :=
          match tab with
          | Products =>
              let newProducts := newItem :: products st in
              onStorage (saveLocalCollection PRODUCTS newProducts)
                (setProducts newProducts st)
          | Sales =>
              let newSales := newItem :: sales st in
              onStorage (saveLocalCollection SALES newSales) (setSales newSales st)
          | Expenses =>
              let newExpenses := newItem :: expenses st in
              onStorage (saveLocalCollection EXPENSES newExpenses)
                (setExpenses newExpenses st)
          | Customers =>
              let newCustomers := newItem :: customers st in
              onStorage (saveLocalCollection CUSTOMERS newCustomers)
                (setCustomers newCustomers st)
          end in
        let queueItem :=
          mkSyncQueueItem (get newItem "id") ADD tab newItem (queueNow clk) in
        let st := onStorage (addToSyncQueue queueItem) st in
        setQueueCount (length (getSyncQueue (localStorage st))) st
    end in
  (* Trigger sync quickly after save - ONLY for the active sheet *)
  if navigator_onLine st1 then setTimeout (CallHandleSync true (Some [tab])) 1000 st1
  else st1.

(** [list.findIndex(f)]; [None] stands for the result -1. *)
Fixpoint findIndex {A : Type} (f : A → bool) (l : list A) : option nat :=
  match l with
  | [] => None
  | x :: rest => if f x then Some 0%nat else S <$> findIndex f rest
  end.

(** The readings of the clock in [handleSaleSubmit]. *)
Record SaleClock : Type := mkSaleClock {
  saleNow : Z;                  (* Date.now() *)
  currentDateTime : string;     (* formatDateTime(new Date()) *)
  productModifiedAt : string;   (* new Date().toISOString(), product update *)
  customerModifiedAt : string   (* new Date().toISOString(), customer update *)
}.

Definition handleSaleSubmit (clk : SaleClock) (saleData customerData : Item)
    (st0 : AppState) : AppState :=
  let timestamp := saleNow clk in
  let saleId := toString timestamp in
  let customerId := toString (timestamp + 1) in
  (* 1. Create Sale *)
  let newSale : Item :=
    <["Date" := VStr (currentDateTime clk)]>
      (saleData ∪ <["id" := VStr saleId]>
                     (<["ID" := VStr saleId]>
                        (<["timestamp" := VNum timestamp]> ∅))) in
  let newSalesList := newSale :: sales st0 in
  let st := setSales newSalesList st0 in
  let st := onStorage (saveLocalCollection SALES newSalesList) st in
  let st :=
    onStorage (addToSyncQueue (mkSyncQueueItem (VStr saleId) ADD Sales newSale timestamp))
      st in
  (* 2. Decrement Product Stock *)
  let st :=
    match findIndex (λ p, strict_eq (get p "Name") (get saleData "ProductName"))
            (products st0) with
    | Some productIndex =>
        match products st0 !! productIndex with
        | Some productToUpdate =>
            let newStock :=
              Math_max0 (js_sub (get productToUpdate "Stock") (get saleData "Quantity")) in
            let updatedProduct :=
              <["ModifiedAt" := VStr (productModifiedAt clk)]>
                (<["ID" := js_or (get productToUpdate "ID") (get productToUpdate "id")]>
                   (<["Stock" := newStock]> productToUpdate)) in
            let st := setFromUpdateLocalItem setProducts PRODUCTS updatedProduct st in
            onStorage
              (addToSyncQueue
                 (mkSyncQueueItem (get updatedProduct "id") UPDATE Products
                    updatedProduct (timestamp + 2)))
              st
        | None => st (* the index found is always within the list *)
        end
    | None => st
    end in
  (* 3. Create/Update Customer *)
  let st :=
    match List.find (λ c, strict_eq (get c "Phone") (get customerData "Phone"))
            (customers st0) with
    | Some existingCustomer =>
        let updatedCustomer :=
          <["ModifiedAt" := VStr (customerModifiedAt clk)]>
            (<["ID" := js_or (get existingCustomer "ID") (get existingCustomer "id")]>
               (<["LastPurchase" := VStr (currentDateTime clk)]>
                  (<["Email" := js_or (get customerData "Address")
                                  (get existingCustomer "Address")]>
                     (<["Address" := js_or (get customerData "Address")
                                       (get existingCustomer "Address")]>
                        (<["TotalPurchases" :=
                             num_add
                               (Number (js_or (get existingCustomer "TotalPurchases")
                                          (VNum 0)))
                               (Number (get saleData "Total"))]>
                           existingCustomer))))) in
        let st := onStorage (λ ls, fst (updateLocalItem CUSTOMERS updatedCustomer ls)) st in
        let st := setFromUpdateLocalItem setCustomers CUSTOMERS updatedCustomer st in
        onStorage
          (addToSyncQueue
             (mkSyncQueueItem (get updatedCustomer "id") UPDATE Customers
                updatedCustomer (timestamp + 1)))
          st
    | None =>
        let newCustomer : Item :=
          <["LastPurchase" := VStr (currentDateTime clk)]>
            (<["Email" := get customerData "Address"]>
               (customerData ∪ <["id" := VStr customerId]>
                                 (<["ID" := VStr customerId]>
                                    (<["timestamp" := VNum (timestamp + 1)]> ∅)))) in
        let newCustomersList := newCustomer :: customers st0 in
        let st := setCustomers newCustomersList st in
        let st := onStorage (saveLocalCollection CUSTOMERS newCustomersList) st in
        onStorage
          (addToSyncQueue
             (mkSyncQueueItem (VStr customerId) ADD Customers newCustomer (timestamp + 1)))
          st
    end in
  let st := setQueueCount (length (getSyncQueue (localStorage st))) st in
  (* Trigger sync quickly after sale - Sync specific affected sheets *)
  if navigator_onLine st then
    setTimeout (CallHandleSync true (Some [Sales; Products; Customers])) 1000 st
  else st.

Definition openDeleteModal (id : string) (tab : SheetName) (st : AppState) : AppState :=
  setDeleteConfirmation (mkDeleteConfirmation true (Some id) (Some tab)) st.

(** The helper [queueDelete] of [executeDelete]: it enqueues the deletion
    of the first record with the id and returns the list without the
    records with that id. *)
Definition queueDelete (deleteNow : Z) (id : string) (sheet : SheetName)
    (lst : list Item) (st : AppState) : AppState * list Item :=
  let st :=
    match List.find (λ i, strict_eq (get i "id") (VStr id)) lst with
    | Some itemToDelete =>
        onStorage
          (addToSyncQueue
             (mkSyncQueueItem (get itemToDelete "id") DELETE sheet
                (<["ID" := js_or (get itemToDelete "ID") (get itemToDelete "id")]>
                   itemToDelete)
                deleteNow))
          st
    | None => st
    end in
  (st, List.filter (λ i, negb (strict_eq (get i "id") (VStr id))) lst).

(** [deleteNow] is the reading [Date.now()] of the queue entry. *)
Definition executeDelete (deleteNow : Z) (st : AppState) : AppState :=
  match dc_id (deleteConfirmation st), dc_sheet (deleteConfirmation st) with
  | Some id, Some sheet =>
      if String.eqb id "" then st (* !id holds of the empty string *)
      else
        let st :=
          match sheet with
          | Products =>
              let '(st, p) := queueDelete deleteNow id sheet (products st) st in
              onStorage (saveLocalCollection PRODUCTS p) (setProducts p st)
          | Sales =>
              let '(st, s) := queueDelete deleteNow id sheet (sales st) st in
              onStorage (saveLocalCollection SALES s) (setSales s st)
          | Expenses =>
              let '(st, e) := queueDelete deleteNow id sheet (expenses st) st in
              onStorage (saveLocalCollection EXPENSES e) (setExpenses e st)
          | Customers =>
              let '(st, c) := queueDelete deleteNow id sheet (customers st) st in
              onStorage (saveLocalCollection CUSTOMERS c) (setCustomers c st)
          end in
        let st := setQueueCount (length (getSyncQueue (localStorage st))) st in
        (* Trigger sync quickly after delete - Sync only the affected sheet *)
        if navigator_onLine st then setTimeout (CallHandleSync true (Some [sheet])) 1000 st
        else st
  | _, _ => st
  end.

(** ** Connectivity signals and the initial load *)

(** The listener of the browser's [online] event. *)
Definition handleOnline (st : AppState) : AppState :=
  setTimeout CallHandleSyncUnlessInitialized 3000 (setStatus ONLINE st).

(** The listener of the browser's [offline] event. *)
Definition handleOffline (st : AppState) : AppState := setStatus OFFLINE st.

(** The effect that loads the collections from the durable store.  React
    runs it on mount and again whenever [handleSync] is rebuilt, that is,
    after every change of [status]. *)
Definition loadInitialData (st : AppState) : AppState :=
  let ls := localStorage st in
  let st := setProducts (getLocalCollection PRODUCTS ls) st in
  let st := setSales (getLocalCollection SALES ls) st in
  let st := setExpenses (getLocalCollection EXPENSES ls) st in
  let st := setCustomers (getLocalCollection CUSTOMERS ls) st in
  let st := setQueueCount (length (getSyncQueue ls)) st in
  if (navigator_onLine st && negb (isInitialized st))%bool then
    setTimeout (CallHandleSync false None) 1500 (setIsInitialized true st)
  else st.

(** ** The sync orchestrator *)

(** How an awaited call of the API service ends: the promise resolves
    with a value or rejects (the [catch] branch runs). *)
Inductive Outcome (A : Type) : Type :=
  | Resolved (a : A)
  | Rejected.
Arguments Resolved {A} a.
Arguments Rejected {A}.

(** A row of the table [sheetDefinitions]. *)
Record SheetDefinition : Type := mkSheetDefinition {
  def_name : SheetName;
  def_setter : list Item → AppState → AppState;
  def_key : StorageKey
}.

Definition sheetDefinitions : list SheetDefinition :=
  [ mkSheetDefinition Products setProducts PRODUCTS;
    mkSheetDefinition Sales setSales SALES;
    mkSheetDefinition Expenses setExpenses EXPENSES;
    mkSheetDefinition Customers setCustomers CUSTOMERS ].

(** The setter of the state variable of a sheet; the rows of
    [sheetDefinitions] pair each name with this setter and with
    [storageKeyOf]. *)
Definition setterOf (name : SheetName) : list Item → AppState → AppState :=
  match name with
  | Products => setProducts
  | Sales => setSales
  | Expenses => setExpenses
  | Customers => setCustomers
  end.

(** The storage key of the collection of a sheet. *)
Definition storageKeyOf (name : SheetName) : StorageKey :=
  match name with
  | Products => PRODUCTS
  | Sales => SALES
  | Expenses => EXPENSES
  | Customers => CUSTOMERS
  end.

Section Gateway.

(** The API service is imported by the component and is not part of the
    sources at hand.  It is a parameter here: a remote endpoint of state
    type [G] whose two calls change its state and resolve or reject.
    [fetchRemoteSheetData] resolves with the rows of a sheet, or with a
    value the guard [if (data)] takes for false ([None]). *)
Context {G : Type}.
Variable postDataToSheet : SheetName → Item → Action → G → G * Outcome unit.
Variable fetchRemoteSheetData : SheetName → G → G * Outcome (option (list Item)).

(** The identifier [Date.now().toString() + Math.random().toString()]
    that the n-th call of [addNotification] computes. *)
Variable freshNotificationId : nat → string.

Definition dismissNotification (id : string) (st : AppState) : AppState :=
  setNotifications (filter (λ n, n_id n ≠ id)) st.

Definition addNotification (msg : string) (type : NotificationType)
    (st : AppState) : AppState :=
  let id := freshNotificationId (notificationSeq st) in
  let st := drawNotificationId st in
  let st := setNotifications (λ prev, prev ++ [mkAppNotification id type msg]) st in
  (* Auto dismiss generic info/success messages (but keep warnings/errors) *)
  match type with
  | info | success => setTimeout (CallDismissNotification id) 4000 st
  | error | warning => st
  end.

(** The loop [for (const item of queue)] of the drain phase. *)
Fixpoint processQueue (queue : list SyncQueueItem) (w : G * AppState)
    : G * AppState :=
  match queue with
  | [] => w
  | item :: rest =>
      let '(g, st) := w in
      let '(g, r) := postDataToSheet (sheet item) (payload item) (action item) g in
      match r with
      | Resolved _ =>
          processQueue rest (g, onStorage (removeFromQueue (q_id item)) st)
      | Rejected =>
          (* We continue loop to try others if possible *)
          processQueue rest
            (g, addNotification
                  ("فشل مزامنة عنصر (" +:+ action_text (action item) +:+ ") في "
                     +:+ sheet_text (sheet item) +:+ ". يرجى المحاولة لاحقاً.")
                  error st)
      end
  end.

(** The helper [syncSheet]; the third component is [hasFetchError]. *)
Definition syncSheet (name : SheetName) (setFn : list Item → AppState → AppState)
    (key : StorageKey) (w : G * AppState * bool) : G * AppState * bool :=
  let '(g, st, hasFetchError) := w in
  let '(g, r) := fetchRemoteSheetData name g in
  match r with
  | Resolved (Some data) =>
      (g, onStorage (saveLocalCollection key data) (setFn data st), hasFetchError)
  | Resolved None => (g, st, hasFetchError)
  | Rejected => (g, st, true)
  end.

(** The loop [for (const def of sheetDefinitions)]. *)
Definition executeFetches (sheetsToSync : list SheetName)
    (defs : list SheetDefinition) (w : G * AppState * bool) : G * AppState * bool :=
  foldl
    (λ w def,
       if bool_decide (def_name def ∈ sheetsToSync) then
         syncSheet (def_name def) (def_setter def) (def_key def) w
       else w)
    w defs.

(** The catch clause around the whole drain phase is not modelled: the
    storage service is total, so nothing reaches it. *)
Definition handleSync (force : bool) (targetSheets : option (list SheetName))
    (w : G * AppState) : G * AppState :=
  let '(g, st) := w in
  if negb (navigator_onLine st) then w
  else if (bool_decide (status st = SYNCING) && negb force)%bool then w
  else
    let st := setStatus SYNCING st in
    let st := setShowSyncSuccess false st in
    (* 1. Process Queue (Upload local changes) *)
    let queue := getSyncQueue (localStorage st) in
    let '(g, st) :=
      match queue with
      | [] => (g, st)
      | _ :: _ =>
          let '(g, st) := processQueue queue (g, st) in
          (g, setQueueCount (length (getSyncQueue (localStorage st))) st)
      end in
    (* 2. Fetch Latest Data *)
    let sheetsToSync := default [Products; Sales; Expenses; Customers] targetSheets in
    let '(g, st, hasFetchError) :=
      executeFetches sheetsToSync sheetDefinitions (g, st, false) in
    let st :=
      if hasFetchError then
        addNotification "فشل جلب بعض البيانات من الخادم. تأكد من اتصال الإنترنت."
          warning st
      else st in
    let st := setStatus ONLINE st in
    (* Show success toast only if no critical errors *)
    let st :=
      if hasFetchError then st
      else setTimeout CallHideSyncSuccess 3000 (setShowSyncSuccess true st) in
    (g, st).

(** What a pending timer does when it fires. *)
Definition runTimer (callback : TimerCallback) (w : G * AppState) : G * AppState :=
  match callback with
  | CallHandleSync force targetSheets => handleSync force targetSheets w
  | CallHandleSyncUnlessInitialized =>
      if isInitialized (snd w) then w else handleSync false None w
  | CallDismissNotification id => (fst w, dismissNotification id (snd w))
  | CallHideSyncSuccess => (fst w, setShowSyncSuccess false (snd w))
  end.

(** *** Reference points for the statements about a pass *)

(** The endpoint after one delivery attempt per entry, in order. *)
Definition deliverAll (queue : list SyncQueueItem) (g : G) : G :=
  foldl (λ g item, fst (postDataToSheet (sheet item) (payload item) (action item) g))
    g queue.

(** The entries whose delivery resolves when each entry of the list is
    attempted once, in order, starting from the endpoint state [g]. *)
Fixpoint delivered (queue : list SyncQueueItem) (g : G) : list SyncQueueItem :=
  match queue with
  | [] => []
  | item :: rest =>
      let '(g', r) := postDataToSheet (sheet item) (payload item) (action item) g in
      match r with
      | Resolved _ => item :: delivered rest g'
      | Rejected => delivered rest g'
      end
  end.

(** The entries whose delivery rejects, likewise. *)
Fixpoint undelivered (queue : list SyncQueueItem) (g : G) : list SyncQueueItem :=
  match queue with
  | [] => []
  | item :: rest =>
      let '(g', r) := postDataToSheet (sheet item) (payload item) (action item) g in
      match r with
      | Resolved _ => undelivered rest g'
      | Rejected => item :: undelivered rest g'
      end
  end.

(** An entry stays in the queue when its id differs from the id of
    every delivered entry: [removeFromQueue] is given an id only. *)
Definition survives (ds : list SyncQueueItem) (x : SyncQueueItem) : bool :=
  forallb (λ d, negb (strict_eq (q_id x) (q_id d))) ds.

(** The endpoint after the fetches of the targeted rows of a table. *)
Definition gatewayAfterFetches (sheetsToSync : list SheetName)
    (defs : list SheetDefinition) (g : G) : G :=
  foldl
    (λ g def,
       if bool_decide (def_name def ∈ sheetsToSync) then
         fst (fetchRemoteSheetData (def_name def) g)
       else g)
    g defs.

(** One turn of the loop of the pull phase, for the row of a sheet. *)
Definition fetchStep (sheetsToSync : list SheetName) (name : SheetName)
    (w : G * AppState * bool) : G * AppState * bool :=
  if bool_decide (name ∈ sheetsToSync) then
    syncSheet name (setterOf name) (storageKeyOf name) w
  else w.

(** The endpoint at the moment the pull phase reaches a sheet, when the
    phase starts from [g]. *)
Definition gatewayAt (sheetsToSync : list SheetName) (name : SheetName) (g : G) : G :=
  let before :=
    match name with
    | Products => 0%nat
    | Sales => 1%nat
    | Expenses => 2%nat
    | Customers => 3%nat
    end in
  gatewayAfterFetches sheetsToSync (take before sheetDefinitions) g.

(** What a collection holds after the fetch of its sheet at the
    endpoint state [g], when it held [old] before. *)
Definition pulled (name : SheetName) (g : G) (old : list Item) : list Item :=
  match snd (fetchRemoteSheetData name g) with
  | Resolved (Some data) => data
  | Resolved None | Rejected => old
  end.

End Gateway.

(** ** Vocabulary of the statements *)

(** The in-memory collection of a sheet. *)
Definition collection (name : SheetName) (st : AppState) : list Item :=
  match name with
  | Products => products st
  | Sales => sales st
  | Expenses => expenses st
  | Customers => customers st
  end.

(** The durable copy of the collection of a sheet. *)
Definition durable (name : SheetName) (st : AppState) : list Item :=
  getLocalCollection (storageKeyOf name) (localStorage st).

(** The mutation queue, as [getSyncQueue()] reads it. *)
Definition queueOf (st : AppState) : list SyncQueueItem :=
  getSyncQueue (localStorage st).

(** The state variable of a collection and its durable copy agree. *)
Definition coherent (name : SheetName) (st : AppState) : Prop :=
  collection name st = durable name st.

(** The entries of a queue that carry the key of [e]. *)
Definition live (e : SyncQueueItem) (queue : list SyncQueueItem) : list SyncQueueItem :=
  filter (λ q, same_key q e = true) queue.

(** A sequence of [enqueue] operations. *)
Definition enqueueAll (entries : list SyncQueueItem) (ls : LocalStorage) : LocalStorage :=
  foldl (λ ls e, addToSyncQueue e ls) ls entries.

(** The part of the state that the drain phase never writes. *)
Definition sameData (st st' : AppState) : Prop :=
  (∀ name, collection name st' = collection name st) ∧
  (∀ name, durable name st' = durable name st) ∧
  status st' = status st ∧ navigator_onLine st' = navigator_onLine st.

(** The remote-facing field of a customer repeats its contact address. *)
Definition emailMirrorsAddress (r : Item) : Prop := get r "Email" = get r "Address".

(** Every customer record and every customer payload that a step has
    written satisfies the mapping. *)
Definition customerWritesMirror (st st' : AppState) : Prop :=
  (∀ r, r ∈ customers st' → r ∉ customers st → emailMirrorsAddress r) ∧
  (∀ r, r ∈ durable Customers st' → r ∉ durable Customers st → emailMirrorsAddress r) ∧
  (∀ e, e ∈ queueOf st' → e ∉ queueOf st → sheet e = Customers →
        emailMirrorsAddress (payload e)).

(** A step writes the customer record [w]: it prepends it or replaces the
    record of the same id by it, the durable copy follows, and an entry
    with [w] for payload is in the queue. *)
Definition writesCustomer (w : Item) (st st' : AppState) : Prop :=
  (customers st' = w :: customers st ∨
   customers st' =
     ((λ r, if strict_eq (get r "id") (get w "id") then w else r) <$> customers st)) ∧
  durable Customers st' = customers st' ∧
  (∃ e, e ∈ queueOf st' ∧ sheet e = Customers ∧ payload e = w).

(** ** A concrete endpoint and a concrete shop, for the examples *)

(** An endpoint that counts the calls it receives.  It rejects the
    deliveries to the sheet [rejected], if any, and resolves the others. *)
Definition countingPost (rejected : option SheetName)
    (sheet : SheetName) (_ : Item) (_ : Action) (calls : nat) : nat * Outcome unit :=
  (S calls, if bool_decide (Some sheet = rejected) then Rejected else Resolved ()).

(** Likewise for the fetches; a fetch that resolves returns [rows]. *)
Definition countingFetch (rows : SheetName → list Item) (rejected : option SheetName)
    (name : SheetName) (calls : nat) : nat * Outcome (option (list Item)) :=
  (S calls,
   if bool_decide (Some name = rejected) then Rejected else Resolved (Some (rows name))).

Definition notificationIds (n : nat) : string := "notification-" +:+ pretty n.

(** The component right after it is mounted in a browser that is online,
    with an empty durable store. *)
Definition mountedOnline : AppState :=
  mkAppState Products ONLINE None (mkDeleteConfirmation false None None) 0 false []
    false [] [] [] [] true (mkLocalStorage [] [] [] [] []) [] 0.

Definition withProducts (rows : list Item) (st : AppState) : AppState :=
  onStorage (saveLocalCollection PRODUCTS rows) (setProducts rows st).

Definition bread : Item :=
  <["id" := VStr "1"]> (<["ID" := VStr "1"]> (<["Name" := VStr "Bread"]>
    (<["Stock" := VNum 10]> ∅))).

(** A shop with ten loaves of bread. *)
Definition bakery : AppState := withProducts [bread] mountedOnline.

Definition saleOf (quantity total : Z) : Item :=
  <["ProductName" := VStr "Bread"]> (<["Quantity" := VNum quantity]>
    (<["Total" := VNum total]> ∅)).

Definition buyer (total : Z) : Item :=
  <["Name" := VStr "Amal"]> (<["Phone" := VStr "0600000000"]>
    (<["Address" := VStr "12 rue des Lilas"]> (<["TotalPurchases" := VNum total]> ∅))).

Definition clockAt (t : Z) : SaleClock :=
  mkSaleClock t "01/01/2026 10:00:00" "2026-01-01T10:00:00.000Z"
    "2026-01-01T10:00:00.000Z".

(** The bakery after a first sale to the buyer, for a total of 50. *)
Definition afterFirstSale : AppState :=
  handleSaleSubmit (clockAt 1000) (saleOf 3 50) (buyer 50) bakery.

(** A record as a sheet without an ID column returns it. *)
Definition remoteRow : Item := <["id" := VStr "7"]> (<["Name" := VStr "Bread"]> ∅).

(** A record whose id is the empty string. *)
Definition blankIdRow : Item := <["id" := VStr ""]> (<["Name" := VStr "Bread"]> ∅).

(** Two entries of different sheets that carry the same id. *)
Definition saleEntry : SyncQueueItem :=
  mkSyncQueueItem (VStr "5") ADD Sales (<["id" := VStr "5"]> ∅) 5.

Definition customerEntry : SyncQueueItem :=
  mkSyncQueueItem (VStr "5") ADD Customers (<["id" := VStr "5"]> ∅) 5.

(** A session: the component is mounted online (the load effect runs),
    connectivity is lost, a product is added while offline, connectivity
    comes back. *)
Definition wentOffline : AppState :=
  handleOffline (setNavigatorOnLine false (loadInitialData mountedOnline)).

Definition addedOffline : AppState :=
  handleSaveItem (mkSaveClock 4000 4000 4000 "2026-01-01T10:00:04.000Z"
                    "01/01/2026 10:00:04")
    (<["Name" := VStr "Baguette"]> (<["Stock" := VNum 5]> ∅)) wentOffline.

Definition backOnline : AppState := handleOnline (setNavigatorOnLine true addedOffline).

(** The customer the first sale has created. *)
Definition knownBuyer : Item := default ∅ (head (customers afterFirstSale)).

(** A second sale to the same buyer, for a total of 30. *)
Definition afterSecondSale : AppState :=
  handleSaleSubmit (clockAt 2000) (saleOf 20 30) (buyer 30) afterFirstSale.

(** The user has asked for the deletion of a record of the products. *)
Definition deletingBread : AppState := openDeleteModal "1" Products bakery.

(** What the example endpoint returns for each sheet. *)
Definition remoteRows (name : SheetName) : list Item :=
  match name with
  | Products => [bread; remoteRow; blankIdRow]
  | _ => []
  end.

(** A forced pass over all sheets after the reconnection, against an
    endpoint that resolves every call. *)
Definition reliablePass : nat * AppState :=
  handleSync (countingPost None) (countingFetch remoteRows None) notificationIds
    true None (0%nat, backOnline).

(** After that pass the products are the rows of the endpoint; the user
    asks for the deletion of one of them. *)
Definition deletingRemoteRow : AppState := openDeleteModal "7" Products reliablePass.2.

Definition deletingBlankIdRow : AppState := openDeleteModal "" Products reliablePass.2.

(** A second sale to the same buyer, recorded one millisecond after the
    first one: its id is the id the first sale gave to the new customer
    (the reading of the clock plus one). *)
Definition nextMillisecondSale : AppState :=
  handleSaleSubmit (clockAt 1001) (saleOf 1 30) (buyer 30) afterFirstSale.

(** A forced pass after these two sales, against an endpoint that rejects
    the deliveries to the Customers sheet. *)
Definition passOverSharedId : nat * AppState :=
  handleSync (countingPost (Some Customers)) (countingFetch remoteRows None)
    notificationIds true None (0%nat, nextMillisecondSale).

(** The sheet, the action and the id of the entries of a queue. *)
Definition keysOf (queue : list SyncQueueItem) : list (SheetName * Action * Value) :=
  (λ e, (sheet e, action e, q_id e)) <$> queue.

(** A forced pass against an endpoint that rejects the deliveries to the
    Products sheet and the fetch of the Sales sheet, after two sales. *)
Definition flakyPass : nat * AppState :=
  handleSync (countingPost (Some Products)) (countingFetch remoteRows (Some Sales))
    notificationIds true None (0%nat, afterSecondSale).

(** Three enqueues under the key (Customers, "5"), with another key in
    between and after. *)
Definition customerUpdate : SyncQueueItem :=
  mkSyncQueueItem (VStr "5") UPDATE Customers
    (<["id" := VStr "5"]> (<["Name" := VStr "Amal"]> ∅)) 6.

Definition customerDeletion : SyncQueueItem :=
  mkSyncQueueItem (VStr "5") DELETE Customers
    (<["id" := VStr "5"]> (<["Name" := VStr "Amal"]> ∅)) 7.

(** ** The rest of the component: alerts, modals, summary *)

Definition setEditingItem (v : option Item) (st : AppState) : AppState :=
  mkAppState (activeTab st) (status st) v (deleteConfirmation st)
    (queueCount st) (showSyncSuccess st) (notifications st) (isInitialized st)
    (products st) (sales st) (expenses st) (customers st)
    (navigator_onLine st) (localStorage st) (timers st) (notificationSeq st).

(** [v <= bound], [v < bound] and [v > bound] for a number [bound]: [v] is
    converted by [Number], and a comparison with not-a-number is false. *)
Definition js_le (v : Value) (bound : Z) : bool :=
  match Number v with
  | VNum z => Z.leb z bound
  | _ => false
  end.

Definition js_lt (v : Value) (bound : Z) : bool :=
  match Number v with
  | VNum z => Z.ltb z bound
  | _ => false
  end.

Definition js_gt (v : Value) (bound : Z) : bool :=
  match Number v with
  | VNum z => Z.ltb bound z
  | _ => false
  end.

(** The text of an element in [Array.prototype.join]: undefined and null
    give the empty string.  Integer-valued numbers print in decimal (the
    exponent form JavaScript uses from 10^21 on is outside the model). *)
Definition joinText (v : Value) : string :=
  match v with
  | VUndef | VNull => ""
  | VBool true => "true"
  | VBool false => "false"
  | VNum z => toString z
  | VNaN => "NaN"
  | VStr s => s
  end.

(** [l.join(sep)]. *)
Definition Array_join (sep : string) (l : list Value) : string :=
  match l with
  | [] => ""
  | x :: rest => fold_left (λ acc y, acc +:+ sep +:+ joinText y) rest (joinText x)
  end.

(** The message of a stock alert; [kind] is the part of the template
    that differs between the two alerts. *)
Definition stockMessage (kind : string) (items : list Item) : string :=
  let itemNames := Array_join "، " (take 3 ((λ p, get p "Name") <$> items)) in
  let remaining := (Z.of_nat (length items) - 3)%Z in
  "تنبيه: يوجد " +:+ toString (Z.of_nat (length items)) +:+ kind +:+ itemNames
    +:+ (if Z.ltb 0 remaining then " و " +:+ toString remaining +:+ " أخرى" else "").

(** The identifier of a notification starts with [stock-]. *)
Definition isStockAlert (n : AppNotification) : bool := String.prefix "stock-" (n_id n).

Definition checkStockLevels (productList : list Item) (st : AppState) : AppState :=
  let outOfStockItems := List.filter (λ p, js_le (get p "Stock") 0) productList in
  let lowStockItems :=
    List.filter (λ p, js_gt (get p "Stock") 0 && js_lt (get p "Stock") 10) productList in
  (* Remove existing stock warnings to avoid duplicates *)
  let st := setNotifications (List.filter (λ n, negb (isStockAlert n))) st in
  match outOfStockItems with
  | _ :: _ =>
      setNotifications
        (λ prev,
           mkAppNotification "stock-out" error (stockMessage " منتجات نفذت كميتها: " outOfStockItems)
             :: prev)
        st
  | [] =>
      match lowStockItems with
      | _ :: _ =>
          setNotifications
            (λ prev,
               mkAppNotification "stock-low" warning (stockMessage " منتجات مخزونها منخفض: " lowStockItems)
                 :: prev)
            st
      | [] => st
      end
  end.

(** The effect that checks the stock levels whenever the products
    change; it skips an empty list. *)
Definition stockEffect (st : AppState) : AppState :=
  match products st with
  | [] => st
  | _ :: _ => checkStockLevels (products st) st
  end.

(** The two classifications at the head of [renderProductCard]. *)
Definition isOutOfStock (item : Item) : bool := js_le (get item "Stock") 0.

Definition isLowStock (item : Item) : bool :=
  negb (isOutOfStock item) && js_lt (get item "Stock") 10.

(** The [useState] cells of the modals; [editingItem] is in [AppState]. *)
Record ModalState : Type := mkModalState {
  isInputModalOpen : bool;
  isSaleModalOpen : bool;
  isReceiptModalOpen : bool;
  selectedProductForSale : option Item;
  selectedSaleForReceipt : option Item
}.

Definition openAddModal (w : AppState * ModalState) : AppState * ModalState :=
  let '(st, m) := w in
  (setEditingItem None st,
   mkModalState true (isSaleModalOpen m) (isReceiptModalOpen m)
     (selectedProductForSale m) (selectedSaleForReceipt m)).

Definition openEditModal (item : Item) (w : AppState * ModalState)
    : AppState * ModalState :=
  let '(st, m) := w in
  (setEditingItem (Some item) st,
   mkModalState true (isSaleModalOpen m) (isReceiptModalOpen m)
     (selectedProductForSale m) (selectedSaleForReceipt m)).

Definition openSaleModal (product : Item) (m : ModalState) : ModalState :=
  if js_le (get product "Stock") 0 then m
  else
    mkModalState (isInputModalOpen m) true (isReceiptModalOpen m)
      (Some product) (selectedSaleForReceipt m).

Definition openReceiptModal (sale : Item) (m : ModalState) : ModalState :=
  mkModalState (isInputModalOpen m) (isSaleModalOpen m) true
    (selectedProductForSale m) (Some sale).

(** [s.split(' ')[0]]: the part of a string before its first space (32
    is the code of the space). *)
Fixpoint beforeSpace (s : string) : string :=
  match s with
  | EmptyString => EmptyString
  | String a rest =>
      if Nat.eqb (Ascii.nat_of_ascii a) 32 then EmptyString
      else String a (beforeSpace rest)
  end.

Section Summary.

(** [formatDateTime] formats a date in the French locale of the browser;
    it is a parameter here, as the day it gives for the value handed to
    [new Date]: [dayOf v] is [formatDateTime(new Date(v)).split(' ')[0]],
    and [todayStr] is this day for the present instant. *)
Variable dayOf : Value → string.
Variable todayStr : string.

(** [Number(s.Total) || 0]. *)
Definition totalOrZero (s : Item) : Value := js_or (Number (get s "Total")) (VNum 0).

(** The day of a sale, as the second [reduce] computes it; [None] when
    the call of [split] on a [Date] that is not a string throws. *)
Definition saleDay (s : Item) : option string :=
  if truthy (get s "timestamp") then Some (dayOf (get s "timestamp"))
  else if truthy (get s "Date") then
    match get s "Date" with
    | VStr d => Some (beforeSpace d)
    | _ => None
    end
  else Some "".

Definition allTimeTotal (sales : list Item) : Value :=
  fold_left (λ acc curr, num_add acc (totalOrZero curr)) sales (VNum 0).

Definition todayTotal (sales : list Item) : option Value :=
  fold_left
    (λ acc s,
       match acc, saleDay s with
       | Some acc, Some sDateStr =>
           if String.eqb sDateStr todayStr then Some (num_add acc (totalOrZero s))
           else Some acc
       | _, _ => None
       end)
    sales (Some (VNum 0)).

(** The pair of the two totals; [None] when the function throws. *)
Definition getSalesSummary (st : AppState) : option (Value * Value) :=
  match todayTotal (sales st) with
  | Some today => Some (allTimeTotal (sales st), today)
  | None => None
  end.

End Summary.

(** *** What a pass tells the user *)

(** The message of the notification for a rejected delivery. *)
Definition deliveryFailedMessage (item : SyncQueueItem) : string :=
  "فشل مزامنة عنصر (" +:+ action_text (action item) +:+ ") في "
    +:+ sheet_text (sheet item) +:+ ". يرجى المحاولة لاحقاً.".

Definition fetchFailedMessage : string := "فشل جلب بعض البيانات من الخادم. تأكد من اتصال الإنترنت.".

Section Feedback.

Context {G : Type}.
Variable postDataToSheet : SheetName → Item → Action → G → G * Outcome unit.
Variable fetchRemoteSheetData : SheetName → G → G * Outcome (option (list Item)).
Variable freshNotificationId : nat → string.

(** The fetch of a targeted sheet is rejected, when the pull phase
    starts from the endpoint state [g]. *)
Definition fetchRejected (sheetsToSync : list SheetName) (name : SheetName) (g : G)
    : bool :=
  bool_decide (name ∈ sheetsToSync) &&
  match snd (fetchRemoteSheetData name
               (gatewayAt fetchRemoteSheetData sheetsToSync name g)) with
  | Rejected => true
  | Resolved _ => false
  end.

Definition anyFetchRejected (sheetsToSync : list SheetName) (g : G) : bool :=
  existsb (λ name, fetchRejected sheetsToSync name g)
    [Products; Sales; Expenses; Customers].

(** The notifications of the rejected deliveries of a snapshot, the
    [first]-th identifier onwards. *)
Definition deliveryErrors (queue : list SyncQueueItem) (g : G) (first : nat)
    : list AppNotification :=
  imap
    (λ k item,
       mkAppNotification (freshNotificationId (first + k)) error
         (deliveryFailedMessage item))
    (undelivered postDataToSheet queue g).

End Feedback.

(** ** Sessions

    What happens to the component between its mount and its unmount is a
    sequence of events: an effect runs, the browser signals a change of
    connectivity, the user presses a control, a timer fires.  Each event
    runs one of the functions above, to its end before the next event
    starts: a pass is one event here and is not interleaved with the
    others. *)

Definition setActiveTab (v : SheetName) (st : AppState) : AppState :=
  mkAppState v (status st) (editingItem st) (deleteConfirmation st)
    (queueCount st) (showSyncSuccess st) (notifications st) (isInitialized st)
    (products st) (sales st) (expenses st) (customers st)
    (navigator_onLine st) (localStorage st) (timers st) (notificationSeq st).

Inductive Event : Type :=
  | LoadEffect                            (* the effect that loads the data *)
  | StockEffect                           (* the effect on [products] *)
  | OnlineEvent                           (* the browser goes online *)
  | OfflineEvent                          (* the browser goes offline *)
  | TabChange (tab : SheetName)           (* onTabChange={setActiveTab} *)
  | SyncButton                            (* onSync={() => handleSync(true)} *)
  | Dismiss (id : string)                 (* onDismissNotification *)
  | OpenAdd
  | OpenEdit (item : Item)
  | OpenSale (product : Item)
  | OpenReceipt (sale : Item)
  | SaveItem (clk : SaveClock) (data : Item)       (* onSubmit={handleSaveItem} *)
  | SaleSubmit (clk : SaleClock) (saleData customerData : Item)
  | OpenDelete (id : string) (tab : SheetName)
  | CloseDelete                           (* onClose of the confirmation *)
  | ConfirmDelete (deleteNow : Z)         (* onConfirm={executeDelete} *)
  | TimerFires (i : nat).                 (* the i-th timer set so far *)

Section Session.

Context {G : Type}.
Variable postDataToSheet : SheetName → Item → Action → G → G * Outcome unit.
Variable fetchRemoteSheetData : SheetName → G → G * Outcome (option (list Item)).
Variable freshNotificationId : nat → string.

(** The list [timers] records every timer set so far; [TimerFires]
    runs the callback of one of them, in any order. *)
Definition step (ev : Event) (w : G * AppState * ModalState)
    : G * AppState * ModalState :=
  let '(g, st, m) := w in
  match ev with
  | LoadEffect => (g, loadInitialData st, m)
  | StockEffect => (g, stockEffect st, m)
  | OnlineEvent => (g, handleOnline (setNavigatorOnLine true st), m)
  | OfflineEvent => (g, handleOffline (setNavigatorOnLine false st), m)
  | TabChange tab => (g, setActiveTab tab st, m)
  | SyncButton =>
      let '(g, st) :=
        handleSync postDataToSheet fetchRemoteSheetData freshNotificationId
          true None (g, st) in
      (g, st, m)
  | Dismiss id => (g, dismissNotification id st, m)
  | OpenAdd => let '(st, m) := openAddModal (st, m) in (g, st, m)
  | OpenEdit item => let '(st, m) := openEditModal item (st, m) in (g, st, m)
  | OpenSale product => (g, st, openSaleModal product m)
  | OpenReceipt sale => (g, st, openReceiptModal sale m)
  | SaveItem clk data => (g, handleSaveItem clk data st, m)
  | SaleSubmit clk saleData customerData =>
      (g, handleSaleSubmit clk saleData customerData st, m)
  | OpenDelete id tab => (g, openDeleteModal id tab st, m)
  | CloseDelete =>
      (g,
       setDeleteConfirmation
         (mkDeleteConfirmation false (dc_id (deleteConfirmation st))
            (dc_sheet (deleteConfirmation st)))
         st,
       m)
  | ConfirmDelete deleteNow => (g, executeDelete deleteNow st, m)
  | TimerFires i =>
      match timers st !! i with
      | Some (_, callback) =>
          let '(g, st) :=
            runTimer postDataToSheet fetchRemoteSheetData freshNotificationId
              callback (g, st) in
          (g, st, m)
      | None => w
      end
  end.

Definition session (events : list Event) (w : G * AppState * ModalState)
    : G * AppState * ModalState :=
  foldl (λ w ev, step ev w) w events.

End Session.

(** The count shown on the sync control is the length of the queue. *)
Definition counted (st : AppState) : Prop := queueCount st = length (queueOf st).

(** ** Further scenarios *)

(** No dialog is open. *)
Definition closedModals : ModalState := mkModalState false false false None None.

Definition saveClockAt (t : Z) : SaveClock :=
  mkSaveClock t t t "2026-01-01T10:00:04.000Z" "01/01/2026 10:00:04".

(** The form of a product, and a form that changes the stock only. *)
Definition baguette : Item := <["Name" := VStr "Baguette"]> (<["Stock" := VNum 5]> ∅).

Definition restock : Item := <["Stock" := VNum 40]> ∅.

(** A sale of a product the bakery does not list, and a sale form that
    lacks its quantity. *)
Definition saleOfCake : Item :=
  <["ProductName" := VStr "Cake"]> (<["Quantity" := VNum 1]>
    (<["Total" := VNum 20]> ∅)).

Definition saleWithoutQuantity : Item :=
  <["ProductName" := VStr "Bread"]> (<["Total" := VNum 50]> ∅).

(** A formatter for which every instant falls on the same day. *)
Definition sameDay (_ : Value) : string := "01/01/2026".

(** A pass of the Products sheet only, after the reconnection. *)
Definition productsPass : nat * AppState :=
  handleSync (countingPost None) (countingFetch remoteRows None) notificationIds
    true (Some [Products]) (0%nat, backOnline).

(** The load effect has run again after the first sale. *)
Definition reloaded : AppState := loadInitialData afterFirstSale.

(** ** The drain loop over any removal

    [removeFromQueue] belongs to the storage service.  The drain loop
    hands it the id of the delivered entry and nothing else (it is
    called as [removeFromQueue(item.id)]); here it is a parameter: any
    function of that id and of the durable store. *)

Section DrainWithAnyRemoval.

Context {G : Type}.
Variable postDataToSheet : SheetName → Item → Action → G → G * Outcome unit.
Variable freshNotificationId : nat → string.
Variable removeById : Value → LocalStorage → LocalStorage.

Fixpoint processQueueWith (queue : list SyncQueueItem) (w : G * AppState)
    : G * AppState :=
  match queue with
  | [] => w
  | item :: rest =>
      let '(g, st) := w in
      let '(g, r) := postDataToSheet (sheet item) (payload item) (action item) g in
      match r with
      | Resolved _ =>
          processQueueWith rest (g, onStorage (removeById (q_id item)) st)
      | Rejected =>
          (* We continue loop to try others if possible *)
          processQueueWith rest
            (g, addNotification freshNotificationId (deliveryFailedMessage item) error st)
      end
  end.

End DrainWithAnyRemoval.

(** ** Scenarios: a form without cumulative total, two entries under one id *)









(** A sale with a negative total, a refund. *)
Definition refunded : AppState :=
  handleSaleSubmit (clockAt 3000) (saleOf 1 (-5)) (buyer 0) bakery.

(** * Properties *)

(** ** Values and objects *)

Lemma strict_eq_true a b : strict_eq a b = true → a = b.
Proof.
  intros H. destruct a, b; try discriminate H; unfold strict_eq in H;
    by apply bool_decide_eq_true_1 in H.
Qed.

Lemma strict_eq_refl v : v ≠ VNaN → strict_eq v v = true.
Proof.
  intros H. destruct v; try done; unfold strict_eq; by apply bool_decide_eq_true_2.
Qed.

Lemma strict_eq_false a b : a ≠ b → strict_eq a b = false.
Proof.
  intros H. destruct (strict_eq a b) eqn:E; [|done]. by apply strict_eq_true in E.
Qed.

Lemma get_insert_eq (o : Item) k v : get (<[k:=v]> o) k = v.
Proof. unfold get. by rewrite lookup_insert_eq. Qed.

Lemma get_insert_ne (o : Item) k k' v : k ≠ k' → get (<[k:=v]> o) k' = get o k'.
Proof. intros H. unfold get. by rewrite lookup_insert_ne. Qed.

Lemma get_empty k : get ∅ k = VUndef.
Proof. unfold get. by rewrite lookup_empty. Qed.

(** Spread: the properties of the later object win. *)
Lemma get_union (a b : Item) k :
  get (a ∪ b) k = match a !! k with Some v => v | None => get b k end.
Proof. unfold get. rewrite lookup_union. destruct (a !! k), (b !! k); done. Qed.

Lemma get_union_l (a b : Item) k : get a k ≠ VUndef → get (a ∪ b) k = get a k.
Proof. rewrite get_union. unfold get. by destruct (a !! k). Qed.

Lemma get_union_absent (a b : Item) k : get b k = VUndef → get (a ∪ b) k = get a k.
Proof. intros H. rewrite get_union. unfold get. by destruct (a !! k). Qed.

Lemma js_or_union (data editing : Item) k :
  js_or (get data k) (get (data ∪ editing) k) = get (data ∪ editing) k.
Proof.
  unfold js_or. destruct (truthy (get data k)) eqn:E; [|done].
  rewrite get_union_l; [done|]. intros H. by rewrite H in E.
Qed.

Ltac get_simpl :=
  repeat (rewrite get_insert_eq || rewrite get_insert_ne by done).

(** ** Lists *)

Lemma filter_none {A} (P : A → Prop) `{∀ x, Decision (P x)} (l : list A) :
  Forall (λ x, ¬ P x) l → filter P l = [].
Proof. induction 1 as [|x l Hx _ IH]; [done|]. by rewrite filter_cons_False. Qed.

Lemma filter_ext_elem {A} (P Q : A → Prop)
    `{∀ x, Decision (P x)} `{∀ x, Decision (Q x)} (l : list A) :
  (∀ x, x ∈ l → P x ↔ Q x) → filter P l = filter Q l.
Proof.
  induction l as [|a l IH]; intros Hiff; [done|].
  rewrite !filter_cons. rewrite IH by (intros x Hx; apply Hiff; by right).
  destruct (decide (P a)) as [Hp|Hp], (decide (Q a)) as [Hq|Hq]; try done;
    exfalso; apply (Hiff a) in Hp || apply (Hiff a) in Hq; try done; by left.
Qed.

Lemma findIndex_Some {A} (f : A → bool) (l : list A) i :
  findIndex f l = Some i →
  ∃ x, l !! i = Some x ∧ f x = true ∧
       ∀ j y, (j < i)%nat → l !! j = Some y → f y = false.
Proof.
  revert i. induction l as [|a l IH]; intros i; simpl; [done|].
  destruct (f a) eqn:Ha.
  - intros [= <-]. exists a. repeat split; [done|]. intros j y Hj. lia.
  - destruct (findIndex f l) as [k|]; [|done]. simpl. intros [= <-].
    destruct (IH k eq_refl) as (x & Hx & Hfx & Hbefore).
    exists x. repeat split; [done..|].
    intros [|j] y Hj; simpl; [by intros [= <-]|]. apply Hbefore. lia.
Qed.

(** ** The storage service: replacement by id *)

Lemma replace_lookup (item x : Item) (l : list Item) i :
  l !! i = Some x →
  strict_eq (get x "id") (get item "id") = true →
  ((λ y, if strict_eq (get y "id") (get item "id") then item else y) <$> l) !! i
    = Some item.
Proof. intros Hx Hid. rewrite list_lookup_fmap, Hx. simpl. by rewrite Hid. Qed.

Lemma replace_idem (item : Item) (k : Value) (l : list Item) :
  get item "id" = k →
  ((λ x, if strict_eq (get x "id") k then item else x) <$>
     ((λ x, if strict_eq (get x "id") k then item else x) <$> l)) =
  ((λ x, if strict_eq (get x "id") k then item else x) <$> l).
Proof.
  intros Hk. rewrite <- list_fmap_compose. apply list_fmap_ext. intros _ x _. simpl.
  destruct (strict_eq (get x "id") k) eqn:E; [|by rewrite E].
  pose proof (strict_eq_true _ _ E) as Hx. rewrite Hx in E. by rewrite Hk, E.
Qed.

Lemma elem_of_replace (item : Item) (k : Value) (l : list Item) r :
  r ∈ ((λ x, if strict_eq (get x "id") k then item else x) <$> l) → r = item ∨ r ∈ l.
Proof.
  intros (y & -> & Hy)%list_elem_of_fmap.
  destruct (strict_eq (get y "id") k); [by left | by right].
Qed.

(** ** The mutation queue: merge on enqueue *)

Lemma same_key_true a b :
  same_key a b = true → sheet a = sheet b ∧ q_id a = q_id b.
Proof.
  unfold same_key. intros H. apply andb_true_iff in H as [H1 H2].
  split; [by apply bool_decide_eq_true_1 in H1 | by apply strict_eq_true].
Qed.

Lemma same_key_refl e : q_id e ≠ VNaN → same_key e e = true.
Proof.
  intros H. unfold same_key. rewrite strict_eq_refl by done.
  by rewrite bool_decide_eq_true_2.
Qed.

Lemma same_key_congr a b e : same_key a b = true → same_key a e = same_key b e.
Proof. intros [Hs Hi]%same_key_true. unfold same_key. by rewrite Hs, Hi. Qed.

Lemma same_key_congr_r a b q : same_key a b = true → same_key q a = same_key q b.
Proof. intros [Hs Hi]%same_key_true. unfold same_key. by rewrite Hs, Hi. Qed.

Lemma live_cons_True e a q : same_key a e = true → live e (a :: q) = a :: live e q.
Proof. intros H. unfold live. by rewrite filter_cons_True. Qed.

Lemma live_cons_False e a q : same_key a e = false → live e (a :: q) = live e q.
Proof. intros H. unfold live. rewrite filter_cons_False; [done|]. by rewrite H. Qed.

(** An enqueue under another key leaves the entries of a key alone. *)
Lemma live_merge_other e x q :
  same_key x e = false → live e (merge_entry x q) = live e q.
Proof.
  intros Hx. induction q as [|a rest IH]; simpl.
  - by rewrite live_cons_False.
  - destruct (same_key a x) eqn:Hax.
    + rewrite (live_cons_False e x) by done.
      rewrite (live_cons_False e a); [done|]. by rewrite (same_key_congr a x e).
    + destruct (same_key a e) eqn:Hae.
      * rewrite !live_cons_True by done. by rewrite IH.
      * rewrite !live_cons_False by done. by rewrite IH.
Qed.

Lemma live_merge_same e q :
  q_id e ≠ VNaN → length (live e q) ≤ 1 → live e (merge_entry e q) = [e].
Proof.
  intros He. induction q as [|a rest IH]; simpl; intros Hlen.
  - rewrite live_cons_True by by apply same_key_refl. done.
  - destruct (same_key a e) eqn:Hae.
    + rewrite live_cons_True in Hlen by done. simpl in Hlen.
      rewrite live_cons_True by by apply same_key_refl.
      destruct (live e rest); [done|simpl in Hlen; lia].
    + rewrite live_cons_False in Hlen by done.
      rewrite live_cons_False by done. by apply IH.
Qed.

Lemma live_same_key e x q : same_key x e = true → live e q = live x q.
Proof.
  intros H. unfold live. apply list_filter_iff. intros y.
  by rewrite (same_key_congr_r x e y).
Qed.

Lemma live_merge_same_key e x q :
  q_id e ≠ VNaN → same_key x e = true → length (live e q) ≤ 1 →
  live e (merge_entry x q) = [x].
Proof.
  intros He Hxe Hlen. rewrite (live_same_key e x) by done.
  apply live_merge_same.
  - apply same_key_true in Hxe as [_ ->]. done.
  - by rewrite <- (live_same_key e x).
Qed.

Lemma live_merge_length e x q :
  q_id e ≠ VNaN → length (live e q) ≤ 1 → length (live e (merge_entry x q)) ≤ 1.
Proof.
  intros He Hlen. destruct (same_key x e) eqn:Hxe.
  - by rewrite live_merge_same_key.
  - by rewrite live_merge_other.
Qed.

Lemma elem_of_merge_entry x q e : e ∈ merge_entry x q → e = x ∨ e ∈ q.
Proof.
  induction q as [|a rest IH]; simpl.
  - intros ->%list_elem_of_singleton. by left.
  - destruct (same_key a x).
    + intros [->|H]%elem_of_cons; [by left | right; by right].
    + intros [->|H]%elem_of_cons; [right; by left|].
      destruct (IH H) as [->|]; [by left | right; by right].
Qed.

Lemma merge_entry_elem x q : x ∈ merge_entry x q.
Proof.
  induction q as [|a rest IH]; simpl; [by left|].
  destruct (same_key a x); [by left | by right].
Qed.

(** Removing the entries of an id adds no entry under any key. *)
Lemma live_removeFromQueue_length e id ls :
  length (live e (getSyncQueue (removeFromQueue id ls))) ≤ length (live e (getSyncQueue ls)).
Proof.
  unfold live, removeFromQueue, getSyncQueue. simpl.
  induction (gs_app_sync_queue ls) as [|a q IH]; [done|].
  rewrite (filter_cons (λ q, strict_eq (q_id q) id = false)).
  destruct (decide (strict_eq (q_id a) id = false)).
  - rewrite !filter_cons. destruct (decide (same_key a e = true)); simpl; lia.
  - rewrite (filter_cons _ a q). destruct (decide (same_key a e = true)); simpl; lia.
Qed.

Lemma enqueueAll_app es1 es2 ls :
  enqueueAll (es1 ++ es2) ls = enqueueAll es2 (enqueueAll es1 ls).
Proof. unfold enqueueAll. by rewrite foldl_app. Qed.

Lemma enqueueAll_live_length e es ls :
  q_id e ≠ VNaN → length (live e (getSyncQueue ls)) ≤ 1 →
  length (live e (getSyncQueue (enqueueAll es ls))) ≤ 1.
Proof.
  intros He. revert ls. induction es as [|x es IH]; intros ls Hlen; [done|].
  simpl. apply IH. by apply live_merge_length.
Qed.

Lemma enqueueAll_live_other e es ls :
  Forall (λ x, same_key x e = false) es →
  live e (getSyncQueue (enqueueAll es ls)) = live e (getSyncQueue ls).
Proof.
  intros Hes. revert ls. induction Hes as [|x es Hx _ IH]; intros ls; [done|].
  simpl. rewrite IH. by apply live_merge_other.
Qed.

(** C1.  Latest wins.  Take a queue with at most one entry under the key
    of [e] (the empty queue is one) and any sequence of enqueues in which
    [e] is the most recent enqueue under its key: whatever was enqueued
    before it, under its key or another, and only other keys after it.
    Then the queue holds exactly one entry under that key, and this entry
    is [e] itself, with its action and its payload.  The id of [e] is not
    not-a-number (the interface declares a string). *)
Theorem enqueue_latest_wins (earlier later : list SyncQueueItem) (e : SyncQueueItem)
    (ls : LocalStorage) :
  q_id e ≠ VNaN →
  length (live e (getSyncQueue ls)) ≤ 1 →
  Forall (λ x, same_key x e = false) later →
  live e (getSyncQueue (enqueueAll (earlier ++ e :: later) ls)) = [e].
Proof.
  intros He Hlen Hlater.
  rewrite enqueueAll_app. change (e :: later) with ([e] ++ later).
  rewrite enqueueAll_app, enqueueAll_live_other by done.
  apply live_merge_same; [done|]. by apply enqueueAll_live_length.
Qed.

(** ** A sync pass *)

Section Pass.

Context {G : Type}.
Variable postDataToSheet : SheetName → Item → Action → G → G * Outcome unit.
Variable fetchRemoteSheetData : SheetName → G → G * Outcome (option (list Item)).
Variable freshNotificationId : nat → string.

Local Abbreviation processQueue := (processQueue postDataToSheet freshNotificationId).
Local Abbreviation handleSync :=
  (handleSync postDataToSheet fetchRemoteSheetData freshNotificationId).
Local Abbreviation executeFetches := (executeFetches fetchRemoteSheetData).
Local Abbreviation fetchStep := (fetchStep fetchRemoteSheetData).
Local Abbreviation deliverAll := (deliverAll postDataToSheet).
Local Abbreviation delivered := (delivered postDataToSheet).
Local Abbreviation undelivered := (undelivered postDataToSheet).
Local Abbreviation gatewayAfterFetches := (gatewayAfterFetches fetchRemoteSheetData).
Local Abbreviation gatewayAt := (gatewayAt fetchRemoteSheetData).
Local Abbreviation pulled := (pulled fetchRemoteSheetData).

Lemma delivered_subset queue g x : x ∈ delivered queue g → x ∈ queue.
Proof.
  revert g. induction queue as [|item rest IH]; intros g; simpl; [done|].
  destruct (postDataToSheet _ _ _ g) as [g1 [[]|]]; rewrite ?elem_of_cons;
    intros; intuition eauto.
Qed.

Lemma undelivered_subset queue g x : x ∈ undelivered queue g → x ∈ queue.
Proof.
  revert g. induction queue as [|item rest IH]; intros g; simpl; [done|].
  destruct (postDataToSheet _ _ _ g) as [g1 [[]|]]; rewrite ?elem_of_cons;
    intros; intuition eauto.
Qed.

Lemma delivered_all queue g :
  (∀ sheet payload action g, (postDataToSheet sheet payload action g).2 = Resolved ()) →
  delivered queue g = queue.
Proof.
  intros Hok. revert g. induction queue as [|item rest IH]; intros g; simpl; [done|].
  pose proof (Hok (sheet item) (payload item) (action item) g) as H.
  destruct (postDataToSheet _ _ _ g) as [g1 r]. simpl in H. subst r.
  by rewrite IH.
Qed.

Lemma survives_spec ds x :
  survives ds x = true ↔ ∀ d, d ∈ ds → strict_eq (q_id x) (q_id d) = false.
Proof.
  unfold survives. rewrite forallb_forall. split.
  - intros H d Hd. apply list_elem_of_In in Hd. apply H in Hd.
    by apply negb_true_iff in Hd.
  - intros H d Hd. apply list_elem_of_In in Hd. apply negb_true_iff. by apply H.
Qed.

(** The drain phase: every entry of the snapshot is attempted, in order,
    whatever the outcome of the attempts before it; the queue loses the
    entries that carry the id of a delivered entry, and nothing else of
    the data changes. *)
Lemma processQueue_spec queue g st :
  let w := processQueue queue (g, st) in
  w.1 = deliverAll queue g ∧
  queueOf w.2 = filter (λ x, survives (delivered queue g) x = true) (queueOf st) ∧
  sameData st w.2.
Proof.
  revert g st. induction queue as [|item rest IH]; intros g st; simpl.
  - split; [done|]. split; [|done].
    unfold survives. simpl. induction (queueOf st) as [|a l IHl]; [done|].
    rewrite filter_cons_True; [by f_equal | done].
  - destruct (postDataToSheet _ _ _ g) as [g1 [[]|]] eqn:Hp; simpl.
    + specialize (IH g1 (onStorage (removeFromQueue (q_id item)) st)).
      simpl in IH. destruct IH as (Hg & Hq & Hd). split; [done|]. split.
      * rewrite Hq. unfold queueOf at 1. simpl.
        rewrite list_filter_filter. apply list_filter_iff. intros x. simpl.
        destruct (strict_eq (q_id x) (q_id item)); simpl; intuition congruence.
      * destruct Hd as (H1 & H2 & H3 & H4). repeat split; intros;
          rewrite ?H1, ?H2, ?H3, ?H4; try done; by destruct name.
    + match goal with
      | |- context [processQueue rest (g1, ?s)] => specialize (IH g1 s)
      end.
      simpl in IH. destruct IH as (Hg & Hq & Hd). split; [done|]. split.
      * rewrite Hq. done.
      * destruct Hd as (H1 & H2 & H3 & H4). repeat split; intros;
          rewrite ?H1, ?H2, ?H3, ?H4; try done; by destruct name.
Qed.

(** With pairwise distinct ids, what stays is what was rejected. *)
Lemma drain_keeps_undelivered queue g :
  NoDup (q_id <$> queue) →
  Forall (λ e, q_id e ≠ VNaN) queue →
  filter (λ x, survives (delivered queue g) x = true) queue = undelivered queue g.
Proof.
  intros Hnd Hids. revert g.
  induction queue as [|item rest IH]; intros g; [done|].
  apply NoDup_cons in Hnd as [Hfresh Hnd]. apply Forall_cons in Hids as [Hid Hids].
  assert (∀ x, x ∈ rest → strict_eq (q_id x) (q_id item) = false) as Hother.
  { intros x Hx. apply strict_eq_false. intros E. apply Hfresh. rewrite <- E.
    by apply list_elem_of_fmap_2. }
  simpl. destruct (postDataToSheet _ _ _ g) as [g1 [[]|]].
  - rewrite filter_cons_False.
    2:{ rewrite survives_spec. intros H.
        specialize (H item (list_elem_of_here _ _)).
        by rewrite strict_eq_refl in H. }
    rewrite <- (IH Hnd Hids g1). apply filter_ext_elem. intros x Hx.
    rewrite !survives_spec. split.
    + intros H d Hd. apply H. by right.
    + intros H d Hd. apply elem_of_cons in Hd as [->|Hd]; [by apply Hother | by apply H].
  - rewrite filter_cons_True.
    2:{ apply survives_spec. intros d Hd. apply delivered_subset in Hd.
        apply strict_eq_false. intros E. apply Hfresh. rewrite E.
        by apply list_elem_of_fmap_2. }
    f_equal. by apply IH.
Qed.

Lemma executeFetches_steps S w :
  executeFetches S sheetDefinitions w =
  fetchStep S Customers (fetchStep S Expenses (fetchStep S Sales (fetchStep S Products w))).
Proof. reflexivity. Qed.

(** One turn of the pull loop touches the collection of its sheet only,
    and only when the sheet is targeted and its fetch resolves. *)
Lemma fetchStep_spec S name g st h :
  ∃ st' h',
    fetchStep S name (g, st, h) =
      (if bool_decide (name ∈ S) then (fetchRemoteSheetData name g).1 else g, st', h') ∧
    (∀ n, collection n st' =
          if bool_decide (n = name) then
            if bool_decide (name ∈ S) then pulled name g (collection n st)
            else collection n st
          else collection n st) ∧
    (∀ n, durable n st' =
          if bool_decide (n = name) then
            if bool_decide (name ∈ S) then pulled name g (durable n st)
            else durable n st
          else durable n st) ∧
    queueOf st' = queueOf st ∧
    status st' = status st.
Proof.
  unfold fetchStep, syncSheet, pulled.
  destruct (bool_decide (name ∈ S)).
  - destruct (fetchRemoteSheetData name g) as [g' [[d|]|]]; simpl;
      eexists _, _; (split; [reflexivity|]);
      repeat split; intros; try done; try (by destruct name);
      match goal with n : SheetName |- _ => by destruct n, name end.
  - exists st, h. repeat split; intros; try done; by case_bool_decide.
Qed.

Lemma executeFetches_spec S g st :
  let w := executeFetches S sheetDefinitions (g, st, false) in
  w.1.1 = gatewayAfterFetches S sheetDefinitions g ∧
  (∀ n, collection n w.1.2 =
        if bool_decide (n ∈ S) then pulled n (gatewayAt S n g) (collection n st)
        else collection n st) ∧
  (∀ n, durable n w.1.2 =
        if bool_decide (n ∈ S) then pulled n (gatewayAt S n g) (durable n st)
        else durable n st) ∧
  queueOf w.1.2 = queueOf st ∧
  status w.1.2 = status st.
Proof.
  rewrite executeFetches_steps.
  destruct (fetchStep_spec S Products g st false)
    as (st1 & h1 & -> & C1 & D1 & Q1 & S1).
  match goal with
  | |- context [fetchStep S Sales (?g1, _, _)] =>
      destruct (fetchStep_spec S Sales g1 st1 h1) as (st2 & h2 & -> & C2 & D2 & Q2 & S2)
  end.
  match goal with
  | |- context [fetchStep S Expenses (?g1, _, _)] =>
      destruct (fetchStep_spec S Expenses g1 st2 h2) as (st3 & h3 & -> & C3 & D3 & Q3 & S3)
  end.
  match goal with
  | |- context [fetchStep S Customers (?g1, _, _)] =>
      destruct (fetchStep_spec S Customers g1 st3 h3) as (st4 & h4 & -> & C4 & D4 & Q4 & S4)
  end.
  simpl. split; [reflexivity|]. split; [|split; [|split; congruence]].
  - intros n. rewrite C4, C3, C2, C1. destruct n; simpl; reflexivity.
  - intros n. rewrite D4, D3, D2, D1. destruct n; simpl; reflexivity.
Qed.

(** A pass that runs: where the endpoint ends up, what is left of the
    queue, what each collection holds, and the final status. *)
Lemma handleSync_run force targetSheets g st :
  navigator_onLine st = true →
  status st ≠ SYNCING ∨ force = true →
  let w := handleSync force targetSheets (g, st) in
  let S := default [Products; Sales; Expenses; Customers] targetSheets in
  let g1 := deliverAll (queueOf st) g in
  w.1 = gatewayAfterFetches S sheetDefinitions g1 ∧
  queueOf w.2 = filter (λ x, survives (delivered (queueOf st) g) x = true) (queueOf st) ∧
  (∀ n, collection n w.2 =
        if bool_decide (n ∈ S) then pulled n (gatewayAt S n g1) (collection n st)
        else collection n st) ∧
  (∀ n, durable n w.2 =
        if bool_decide (n ∈ S) then pulled n (gatewayAt S n g1) (durable n st)
        else durable n st) ∧
  status w.2 = ONLINE.
Proof.
  intros Hon Hguard. unfold handleSync. rewrite Hon. simpl negb. cbv iota.
  assert (bool_decide (status st = SYNCING) && negb force = false) as ->.
  { destruct Hguard as [Hs | ->]; [|by rewrite andb_false_r].
    by rewrite bool_decide_eq_false_2. }
  set (st0 := setShowSyncSuccess false (setStatus SYNCING st)).
  pose proof (processQueue_spec (queueOf st0) g st0) as Hdrain.
  assert (queueOf st0 = queueOf st) as Hq0 by reflexivity.
  change (getSyncQueue (localStorage st0)) with (queueOf st0).
  assert (∃ g1 st1,
    match queueOf st0 with
    | [] => (g, st0)
    | _ :: _ =>
        let '(g, st) := processQueue (queueOf st0) (g, st0) in
        (g, setQueueCount (length (getSyncQueue (localStorage st))) st)
    end = (g1, st1) ∧
    g1 = deliverAll (queueOf st) g ∧
    queueOf st1 = filter (λ x, survives (delivered (queueOf st) g) x = true) (queueOf st) ∧
    (∀ n, collection n st1 = collection n st) ∧
    (∀ n, durable n st1 = durable n st)) as (g1 & st1 & -> & -> & Hq1 & Hc1 & Hd1).
  { rewrite Hq0 in *. destruct (queueOf st) as [|q0 qs] eqn:Hq.
    - exists g, st0. repeat split; try done; intros n; by destruct n.
    - destruct (processQueue (q0 :: qs) (g, st0)) as [g1 st1].
      simpl in Hdrain. destruct Hdrain as (Hg & Hqq & Hc & Hd & _).
      eexists _, _. split; [reflexivity|]. split; [done|]. split; [done|].
      split; intros n.
      + transitivity (collection n st1); [by destruct n|].
        rewrite Hc. by destruct n.
      + transitivity (durable n st1); [by destruct n|].
        rewrite Hd. by destruct n. }
  set (S := default [Products; Sales; Expenses; Customers] targetSheets).
  pose proof (executeFetches_spec S (deliverAll (queueOf st) g) st1) as Hpull.
  destruct (executeFetches S sheetDefinitions (deliverAll (queueOf st) g, st1, false))
    as [[g2 st2] h]. simpl in Hpull. destruct Hpull as (Hg2 & Hc2 & Hd2 & Hq2 & Hs2).
  simpl. split; [done|].
  destruct h; simpl.
  all: split; [by rewrite <- Hq1, <- Hq2|].
  all: split; [intros n; rewrite <- Hc1, <- Hc2; by destruct n|].
  all: split; [intros n; rewrite <- Hd1, <- Hd2; by destruct n|done].
Qed.

(** C2.  A complete pass against an endpoint that never fails.  The pass
    runs (the browser is online and the pass is not held back by the
    guard on SYNCING), all four sheets are targeted, every delivery and
    every fetch resolves, the fetches with rows.  Then the queue is empty
    at the end, and each collection, in memory and in the durable store,
    is the list of rows the endpoint returned for its sheet during the
    pass.  No queued id is not-a-number (the interface declares a
    string). *)
Theorem full_pass_with_reliable_gateway force targetSheets g st :
  navigator_onLine st = true →
  status st ≠ SYNCING ∨ force = true →
  (∀ name, name ∈ default [Products; Sales; Expenses; Customers] targetSheets) →
  Forall (λ e, q_id e ≠ VNaN) (queueOf st) →
  (∀ sheet payload action g, (postDataToSheet sheet payload action g).2 = Resolved ()) →
  (∀ name g, ∃ data, (fetchRemoteSheetData name g).2 = Resolved (Some data)) →
  let w := handleSync force targetSheets (g, st) in
  let S := default [Products; Sales; Expenses; Customers] targetSheets in
  let g1 := deliverAll (queueOf st) g in
  queueOf w.2 = [] ∧
  ∀ name, ∃ data,
    (fetchRemoteSheetData name (gatewayAt S name g1)).2 = Resolved (Some data) ∧
    collection name w.2 = data ∧
    durable name w.2 = data.
Proof.
  intros Hon Hguard Hall Hids Hpost Hfetch w S g1.
  destruct (handleSync_run force targetSheets g st Hon Hguard) as (_ & Hq & Hc & Hd & _).
  fold w S g1 in Hq, Hc, Hd. split.
  - rewrite Hq, (delivered_all _ _ Hpost).
    apply filter_none. apply Forall_forall. intros x Hx Hsurv.
    rewrite Forall_forall in Hids.
    apply survives_spec with (d := x) in Hsurv; [|done].
    rewrite strict_eq_refl in Hsurv; [done|by apply Hids].
  - intros name. destruct (Hfetch name (gatewayAt S name g1)) as [data Hdata].
    exists data. split; [done|].
    rewrite Hc, Hd, bool_decide_eq_true_2 by apply Hall.
    unfold pulled. by rewrite Hdata.
Qed.

(** Failures are isolated within a pass that runs, as far as the ids of
    the queued entries allow.
    - Drain: an entry whose delivery is rejected is still in the queue at
      the end, provided no entry delivered in the same pass carries its
      id (the queue is told the id of a delivered entry and nothing
      else); when the ids of the snapshot are pairwise distinct, the queue
      at the end is exactly the list of the rejected entries.
    - The endpoint has received one delivery attempt per entry of the
      snapshot and one fetch per targeted sheet, whatever failed.
    - Pull: a targeted collection whose fetch is rejected is unchanged,
      in memory and in the durable store; one whose fetch resolves with
      rows holds these rows, whatever happened to the other sheets. *)
Theorem sync_pass_isolates_failures force targetSheets g st :
  navigator_onLine st = true →
  status st ≠ SYNCING ∨ force = true →
  let w := handleSync force targetSheets (g, st) in
  let S := default [Products; Sales; Expenses; Customers] targetSheets in
  let g1 := deliverAll (queueOf st) g in
  (∀ x, x ∈ undelivered (queueOf st) g →
        (∀ d, d ∈ delivered (queueOf st) g → q_id d ≠ q_id x) →
        x ∈ queueOf w.2) ∧
  (NoDup (q_id <$> queueOf st) → Forall (λ e, q_id e ≠ VNaN) (queueOf st) →
   queueOf w.2 = undelivered (queueOf st) g) ∧
  w.1 = gatewayAfterFetches S sheetDefinitions g1 ∧
  ∀ name, name ∈ S →
    ((fetchRemoteSheetData name (gatewayAt S name g1)).2 = Rejected →
     collection name w.2 = collection name st ∧ durable name w.2 = durable name st) ∧
    (∀ data,
       (fetchRemoteSheetData name (gatewayAt S name g1)).2 = Resolved (Some data) →
       collection name w.2 = data ∧ durable name w.2 = data).
Proof.
  intros Hon Hguard w S g1.
  destruct (handleSync_run force targetSheets g st Hon Hguard) as (Hg & Hq & Hc & Hd & _).
  fold w S g1 in Hg, Hq, Hc, Hd. split; [|split; [|split; [done|]]].
  - intros x Hx Hclash. rewrite Hq. apply list_elem_of_filter. split.
    + apply survives_spec. intros d Hd'. apply strict_eq_false.
      intros E. by apply (Hclash d).
    + by eapply undelivered_subset.
  - intros Hnd Hids. rewrite Hq. by apply drain_keeps_undelivered.
  - intros name Hname. rewrite Hc, Hd, bool_decide_eq_true_2 by done.
    unfold pulled. split; [intros Hr | intros data Hr]; by rewrite Hr.
Qed.

(** C4.  A pass that begins ends ONLINE: when the browser is online and
    the guard on SYNCING lets the pass through, the status at the end of
    [handleSync] is ONLINE, for every endpoint, that is, whatever is
    rejected on the way. *)
Theorem sync_pass_ends_online force targetSheets g st :
  navigator_onLine st = true →
  status st ≠ SYNCING ∨ force = true →
  status (handleSync force targetSheets (g, st)).2 = ONLINE.
Proof. intros Hon Hguard. by apply handleSync_run. Qed.

(** C10.  With [navigator.onLine] off, [handleSync] returns at once,
    forced or not: the state of the component and of the durable store
    is the one it was given, and so is the state of the endpoint, which
    has received no call. *)
Theorem handleSync_offline_changes_nothing force targetSheets g st :
  navigator_onLine st = false →
  handleSync force targetSheets (g, st) = (g, st).
Proof. intros Hoff. unfold handleSync. by rewrite Hoff. Qed.

(** C9, as amended.  The listener of the online event sets the status to
    ONLINE and schedules, 3000 ms later, a callback that runs a sync only
    when the flag [isInitialized] is still unset; with the flag set the
    callback leaves the component and the endpoint as they are. *)
Theorem handleOnline_schedules_guarded_sync st :
  status (handleOnline st) = ONLINE ∧
  timers (handleOnline st) = timers st ++ [(3000%Z, CallHandleSyncUnlessInitialized)] ∧
  isInitialized (handleOnline st) = isInitialized st ∧
  ∀ w : G * AppState,
    runTimer postDataToSheet fetchRemoteSheetData freshNotificationId
      CallHandleSyncUnlessInitialized w
    = if isInitialized w.2 then w else handleSync false None w.
Proof.
  split; [reflexivity|]. split; [reflexivity|].
  split; [reflexivity|]. intros w. reflexivity.
Qed.

End Pass.

(** ** Recording a sale *)

(** C5.  A sale decrements the stock and clamps it at zero.  The product
    is the first one whose name is the product name of the sale; its
    stock and the quantity sold are numbers, its id is not not-a-number,
    and the state variable of the products agrees with its durable copy.
    After the sale the product at the same position has the stock
    [max 0 (stock - quantity)] and the same id and name, no product is
    added or removed, and a new sale record with the quantity of the sale
    heads the sales, in memory and in the durable store. *)
Theorem sale_decrements_stock clk saleData customerData st i p s q :
  findIndex (λ p, strict_eq (get p "Name") (get saleData "ProductName")) (products st)
    = Some i →
  products st !! i = Some p →
  coherent Products st →
  get p "id" ≠ VNaN →
  get p "Stock" = VNum s →
  get saleData "Quantity" = VNum q →
  let st' := handleSaleSubmit clk saleData customerData st in
  (∃ p', products st' !! i = Some p' ∧
         get p' "Stock" = VNum (Z.max 0 (s - q)) ∧
         get p' "id" = get p "id" ∧
         get p' "Name" = get p "Name") ∧
  length (products st') = length (products st) ∧
  coherent Products st' ∧
  (∃ sale, sales st' = sale :: sales st ∧
           durable Sales st' = sale :: sales st ∧
           get sale "Quantity" = VNum q).
Proof.
  intros Hfind Hp Hcoh Hid Hstock Hqty st'.
  unfold coherent, durable in Hcoh. simpl in Hcoh.
  subst st'. unfold handleSaleSubmit. rewrite Hfind, Hp.
  set (updatedProduct := <["ModifiedAt" := _]> (<["ID" := _]> (<["Stock" := _]> p))).
  assert (get updatedProduct "id" = get p "id") as Hsame
    by (subst updatedProduct; by get_simpl).
  assert (get updatedProduct "Stock" = VNum (Z.max 0 (s - q))) as Hnew.
  { subst updatedProduct. get_simpl. by rewrite Hstock, Hqty. }
  destruct (List.find _ (customers st)) as [c|];
    match goal with |- context [if ?b then _ else _] => destruct b end; simpl.
  all: rewrite <- Hcoh.
  all: split;
    [exists updatedProduct; split;
       [apply (replace_lookup _ p); [done|rewrite Hsame; by apply strict_eq_refl]|];
     split; [done|]; split; [done|]; subst updatedProduct; by get_simpl|].
  all: split; [by rewrite length_fmap|].
  all: split; [unfold coherent, durable; simpl; by rewrite <- Hcoh|].
  all: eexists; split; [reflexivity|]; split; [reflexivity|].
  all: get_simpl.
  all: rewrite get_union_l; by rewrite Hqty.
Qed.

(** The update of a customer by a sale, in full. *)
Lemma existing_customer_update clk saleData customerData st c t a :
  List.find (λ c, strict_eq (get c "Phone") (get customerData "Phone")) (customers st)
    = Some c →
  coherent Customers st →
  get c "id" ≠ VNaN →
  get c "TotalPurchases" = VNum t →
  get saleData "Total" = VNum a →
  let st' := handleSaleSubmit clk saleData customerData st in
  ∃ c',
    customers st' =
      ((λ r, if strict_eq (get r "id") (get c "id") then c' else r) <$> customers st) ∧
    length (customers st') = length (customers st) ∧
    coherent Customers st' ∧
    (∃ i, customers st !! i = Some c ∧ customers st' !! i = Some c') ∧
    get c' "TotalPurchases" = VNum (t + a) ∧
    get c' "LastPurchase" = VStr (currentDateTime clk) ∧
    get c' "Phone" = get c "Phone" ∧
    get c' "id" = get c "id" ∧
    get c' "Name" = get c "Name".
Proof.
  intros Hfind Hcoh Hid Htotal Hsale st'.
  unfold coherent, durable in Hcoh. simpl in Hcoh.
  subst st'. unfold handleSaleSubmit. rewrite Hfind.
  apply find_some in Hfind as [Hin _]. apply list_elem_of_In in Hin.
  apply list_elem_of_lookup in Hin as [j Hj].
  set (updatedCustomer := <["ModifiedAt" := _]> (<["ID" := _]> (<["LastPurchase" := _]>
         (<["Email" := _]> (<["Address" := _]> (<["TotalPurchases" := _]> c)))))).
  assert (get updatedCustomer "id" = get c "id") as Hsame
    by (subst updatedCustomer; by get_simpl).
  exists updatedCustomer.
  destruct (findIndex _ (products st)) as [i|]; [destruct (products st !! i)|];
    match goal with |- context [if ?b then _ else _] => destruct b end; simpl.
  all: rewrite <- Hcoh, Hsame, replace_idem by done.
  all: split; [done|]; split; [by rewrite length_fmap|].
  all: split; [unfold coherent, durable; simpl;
               by rewrite <- Hcoh, Hsame, replace_idem|].
  all: split; [exists j; split; [done|]; rewrite list_lookup_fmap, Hj; simpl;
               by rewrite strict_eq_refl|].
  all: subst updatedCustomer; get_simpl.
  all: rewrite Htotal, Hsale; repeat split; try done.
  all: unfold js_or; simpl; by destruct (Z.eqb_spec t 0) as [->|].
Qed.

(** A sale to a known phone number updates the customer.  The
    customer [c] is the first one whose phone is the phone of the sale
    form; its cumulative total and the total of the sale are numbers, its
    id is not not-a-number, and the state variable of the customers
    agrees with its durable copy.  After the sale there are as many
    customers as before, with the same ids at the same positions: no
    record is created.  At the position of [c] stands a record with the
    same id, name and phone, the cumulative total increased by the total
    of the sale, and the last purchase set to the date and time of the
    sale. *)
Theorem sale_updates_existing_customer clk saleData customerData st c t a :
  List.find (λ c, strict_eq (get c "Phone") (get customerData "Phone")) (customers st)
    = Some c →
  coherent Customers st →
  get c "id" ≠ VNaN →
  get c "TotalPurchases" = VNum t →
  get saleData "Total" = VNum a →
  let st' := handleSaleSubmit clk saleData customerData st in
  length (customers st') = length (customers st) ∧
  (λ r, get r "id") <$> customers st' = (λ r, get r "id") <$> customers st ∧
  coherent Customers st' ∧
  ∃ i c',
    customers st !! i = Some c ∧
    customers st' !! i = Some c' ∧
    get c' "TotalPurchases" = VNum (t + a) ∧
    get c' "LastPurchase" = VStr (currentDateTime clk) ∧
    get c' "Phone" = get c "Phone" ∧
    get c' "id" = get c "id" ∧
    get c' "Name" = get c "Name".
Proof.
  intros Hfind Hcoh Hid Htotal Hsale st'.
  destruct (existing_customer_update clk saleData customerData st c t a
              Hfind Hcoh Hid Htotal Hsale)
    as (c' & Hall & Hlen & Hcoh' & (i & Hi & Hi') & Hrest).
  fold st' in Hall, Hlen, Hcoh', Hi'. destruct Hrest as (H1 & H2 & H3 & H4 & H5).
  split; [done|]. split; [|split; [done|by exists i, c']].
  rewrite Hall, <- list_fmap_compose. apply list_fmap_ext. intros _ r _. simpl.
  destruct (strict_eq (get r "id") (get c "id")) eqn:E; [|done].
  apply strict_eq_true in E. congruence.
Qed.

(** A sale to an unknown phone number creates the customer from the data
    of the form: the cumulative total of the new record is the one the
    form carries. *)
Lemma sale_creates_customer clk saleData customerData st :
  List.find (λ c, strict_eq (get c "Phone") (get customerData "Phone")) (customers st)
    = None →
  let st' := handleSaleSubmit clk saleData customerData st in
  ∃ c, customers st' = c :: customers st ∧
       durable Customers st' = c :: customers st ∧
       get c "Phone" = get customerData "Phone" ∧
       get c "TotalPurchases" = get customerData "TotalPurchases" ∧
       (customerData !! "id" = None → get c "id" = VStr (toString (saleNow clk + 1))).
Proof.
  intros Hfind st'. subst st'. unfold handleSaleSubmit. rewrite Hfind.
  eexists.
  destruct (findIndex _ (products st)) as [i|]; [destruct (products st !! i)|];
    match goal with |- context [if ?b then _ else _] => destruct b end; simpl.
  all: split; [reflexivity|]; split; [reflexivity|]; get_simpl.
  all: rewrite !get_union_absent by (get_simpl; apply get_empty).
  all: split; [done|]; split; [done|].
  all: intros Hno; rewrite get_union, Hno; by get_simpl.
Qed.

(** X23.  Two sales to a phone number no customer has yet: the first
    creates the customer, the second updates it.  One record is added in
    all, and its cumulative total is the total the first form carries
    plus the total of the second sale.  The id the first sale generates
    is not the id of a customer already there. *)
Lemma two_sales_same_phone clk1 clk2 sale1 sale2 form1 form2 st p t a :
  List.find (λ c, strict_eq (get c "Phone") (VStr p)) (customers st) = None →
  coherent Customers st →
  get form1 "Phone" = VStr p →
  get form2 "Phone" = VStr p →
  form1 !! "id" = None →
  Forall (λ r, get r "id" ≠ VStr (toString (saleNow clk1 + 1))) (customers st) →
  get form1 "TotalPurchases" = VNum t →
  get sale2 "Total" = VNum a →
  let st2 := handleSaleSubmit clk2 sale2 form2 (handleSaleSubmit clk1 sale1 form1 st) in
  ∃ c, customers st2 = c :: customers st ∧
       get c "Phone" = VStr p ∧
       get c "TotalPurchases" = VNum (t + a).
Proof.
  intros Hnone Hcoh Hp1 Hp2 Hnoid Hfresh Ht Ha st2.
  destruct (sale_creates_customer clk1 sale1 form1 st)
    as (c1 & Hc1 & Hd1 & Hphone & Htot & Hid).
  { by rewrite Hp1. }
  specialize (Hid Hnoid).
  set (st1 := handleSaleSubmit clk1 sale1 form1 st) in *.
  assert (List.find (λ c, strict_eq (get c "Phone") (get form2 "Phone")) (customers st1)
          = Some c1) as Hfind.
  { rewrite Hc1. simpl. rewrite Hphone, Hp1, Hp2. simpl. by rewrite bool_decide_eq_true_2. }
  assert (coherent Customers st1) as Hcoh1 by (unfold coherent; by rewrite Hd1).
  destruct (existing_customer_update clk2 sale2 form2 st1 c1 t a Hfind Hcoh1)
    as (c2 & Hc2 & _ & _ & _ & Htotal & _ & Hphone2 & _); [by rewrite Hid|congruence|done|].
  exists c2. fold st2 in Hc2. split; [|split; [congruence|done]].
  rewrite Hc2, Hc1, fmap_cons, Hid, strict_eq_refl by done. f_equal.
  rewrite <- (list_fmap_id (customers st)) at 2. apply list_fmap_ext.
  intros i r Hr. rewrite Forall_forall in Hfresh.
  rewrite strict_eq_false; [done|]. apply Hfresh. by eapply list_elem_of_lookup_2.
Qed.

(** ** The cumulative total of a customer *)



(** ** The mapping of the address of a customer *)

Lemma handleSaveItem_mirror clk data st :
  coherent Customers st → customerWritesMirror st (handleSaveItem clk data st).
Proof.
  intros Hcoh. unfold coherent, durable in Hcoh. simpl in Hcoh.
  unfold customerWritesMirror, handleSaveItem, durable, queueOf.
  destruct (editingItem st) as [editing|], (activeTab st) eqn:Htab;
    match goal with |- context [if ?b then _ else _] => destruct b end;
    simpl; rewrite <- ?Hcoh.
  all: repeat split; intros x Hx Hnew; try done.
  all: try (intros Hsheet).
  all: try (apply elem_of_merge_entry in Hx as [->|Hx]; [|done]; simpl in *; try done).
  all: try (apply elem_of_replace in Hx as [->|Hx]; [|done]).
  all: try (apply elem_of_cons in Hx as [->|Hx]; [|done]).
  all: unfold emailMirrorsAddress; get_simpl.
  all: try apply js_or_union.
  all: rewrite get_union_absent; [done|]; get_simpl; apply get_empty.
Qed.

Lemma handleSaleSubmit_mirror clk saleData customerData st :
  coherent Customers st →
  customerWritesMirror st (handleSaleSubmit clk saleData customerData st).
Proof.
  intros Hcoh. unfold coherent, durable in Hcoh. simpl in Hcoh.
  unfold customerWritesMirror, handleSaleSubmit, durable, queueOf.
  destruct (findIndex _ (products st)) as [i|]; [destruct (products st !! i)|];
    (destruct (List.find _ (customers st)) as [c|]);
    match goal with |- context [if ?b then _ else _] => destruct b end;
    simpl; rewrite <- ?Hcoh.
  all: repeat split; intros x Hx Hnew; try done.
  all: try (intros Hsheet).
  all: repeat (apply elem_of_merge_entry in Hx as [->|Hx]; simpl in *; try done).
  all: repeat (apply elem_of_replace in Hx as [->|Hx]; try done).
  all: try (apply elem_of_cons in Hx as [->|Hx]; [|done]).
  all: unfold emailMirrorsAddress; get_simpl; try done.
  all: rewrite get_union_absent; [done|]; get_simpl; apply get_empty.
Qed.

Lemma handleSaveItem_writes clk data st :
  coherent Customers st → activeTab st = Customers →
  ∃ w, writesCustomer w st (handleSaveItem clk data st) ∧ emailMirrorsAddress w.
Proof.
  intros Hcoh Htab. unfold coherent, durable in Hcoh. simpl in Hcoh.
  unfold writesCustomer, handleSaveItem, durable, queueOf. rewrite Htab.
  destruct (editingItem st) as [editing|];
    match goal with |- context [if ?b then _ else _] => destruct b end;
    simpl; rewrite <- ?Hcoh.
  all: eexists; split;
    [split; [(by left) || (by right)|]; split; [done|];
     eexists; split; [apply merge_entry_elem|]; by split|].
  all: unfold emailMirrorsAddress; get_simpl.
  all: try apply js_or_union.
  all: rewrite get_union_absent; [done|]; get_simpl; apply get_empty.
Qed.

Lemma handleSaleSubmit_writes clk saleData customerData st :
  coherent Customers st →
  ∃ w, writesCustomer w st (handleSaleSubmit clk saleData customerData st) ∧
       emailMirrorsAddress w.
Proof.
  intros Hcoh. unfold coherent, durable in Hcoh. simpl in Hcoh.
  unfold writesCustomer, handleSaleSubmit, durable, queueOf.
  destruct (findIndex _ (products st)) as [i|]; [destruct (products st !! i)|];
    (destruct (List.find _ (customers st)) as [c|]);
    match goal with |- context [if ?b then _ else _] => destruct b end;
    simpl; rewrite <- ?Hcoh.
  all: eexists; split;
    [split; [(by left) || (right; by rewrite replace_idem)|]; split;
       [done || by rewrite replace_idem|];
     eexists; split; [apply merge_entry_elem|]; by split|].
  all: unfold emailMirrorsAddress; get_simpl; try done.
  all: rewrite get_union_absent; [done|]; get_simpl; apply get_empty.
Qed.

(** C8.  Every write of a customer keeps "Email" equal to "Address".
    Provided the state variable of the customers agrees with its durable
    copy: saving the form on the Customers tab (add or update) and
    recording a sale (customer created or updated) each write one
    customer record, to the collection, to the durable store and as the
    payload of a queue entry, and this record has its "Email" equal to
    its "Address"; moreover, whatever the tab, every customer record and
    every customer payload that is there after the step and was not
    there before has its "Email" equal to its "Address". *)
Theorem customer_writes_mirror_address st :
  coherent Customers st →
  (∀ clk data,
     activeTab st = Customers →
     ∃ w, writesCustomer w st (handleSaveItem clk data st) ∧ emailMirrorsAddress w) ∧
  (∀ clk saleData customerData,
     ∃ w, writesCustomer w st (handleSaleSubmit clk saleData customerData st) ∧
          emailMirrorsAddress w) ∧
  (∀ clk data, customerWritesMirror st (handleSaveItem clk data st)) ∧
  (∀ clk saleData customerData,
     customerWritesMirror st (handleSaleSubmit clk saleData customerData st)).
Proof.
  intros Hcoh. split; [|split; [|split]]; intros.
  - by apply handleSaveItem_writes.
  - by apply handleSaleSubmit_writes.
  - by apply handleSaveItem_mirror.
  - by apply handleSaleSubmit_mirror.
Qed.

(** ** Deleting a record *)

(** What [executeDelete] does once past its guard. *)
Lemma executeDelete_run now st id name :
  dc_id (deleteConfirmation st) = Some id →
  dc_sheet (deleteConfirmation st) = Some name →
  id ≠ "" →
  let st' := executeDelete now st in
  let kept :=
    List.filter (λ i, negb (strict_eq (get i "id") (VStr id))) (collection name st) in
  collection name st' = kept ∧
  durable name st' = kept ∧
  (∀ other, other ≠ name →
     collection other st' = collection other st ∧ durable other st' = durable other st) ∧
  queueOf st' =
    match List.find (λ i, strict_eq (get i "id") (VStr id)) (collection name st) with
    | Some r =>
        merge_entry
          (mkSyncQueueItem (get r "id") DELETE name
             (<["ID" := js_or (get r "ID") (get r "id")]> r) now)
          (queueOf st)
    | None => queueOf st
    end.
Proof.
  intros Hid Hsheet Hne st'. subst st'. unfold executeDelete. rewrite Hid, Hsheet.
  apply String.eqb_neq in Hne. rewrite Hne.
  unfold queueDelete, durable, queueOf.
  destruct name; simpl;
    match goal with |- context [List.find ?f ?l] => destruct (List.find f l) end;
    match goal with |- context [if ?b then _ else _] => destruct b end; simpl.
  all: repeat split; try done; by destruct other.
Qed.

(** C7, as amended.  The deletion of a record whose id is not the empty
    string.  [r] is the first record of the collection with the id under
    deletion.  One entry is enqueued (merged by key, as every enqueue):
    a DELETE for the sheet and the id, whose payload is [r] with its "ID"
    property set to [r.ID || r.id]; the payload agrees with [r] on every
    other property, and is [r] itself when [r] has a truthy "ID".  The
    records with that id are gone from the collection in memory, the
    durable copy holds the same reduced list, and the other collections
    are untouched.  All of this is done when [executeDelete] returns;
    the sync is only scheduled. *)
Theorem delete_removes_and_enqueues now st id name r :
  dc_id (deleteConfirmation st) = Some id →
  dc_sheet (deleteConfirmation st) = Some name →
  id ≠ "" →
  List.find (λ i, strict_eq (get i "id") (VStr id)) (collection name st) = Some r →
  let st' := executeDelete now st in
  let entry :=
    mkSyncQueueItem (get r "id") DELETE name
      (<["ID" := js_or (get r "ID") (get r "id")]> r) now in
  queueOf st' = merge_entry entry (queueOf st) ∧
  entry ∈ queueOf st' ∧
  q_id entry = VStr id ∧
  (∀ k, k ≠ "ID" → payload entry !! k = r !! k) ∧
  (truthy (get r "ID") = true → payload entry = r) ∧
  r ∈ collection name st ∧
  collection name st' =
    List.filter (λ i, negb (strict_eq (get i "id") (VStr id))) (collection name st) ∧
  durable name st' = collection name st' ∧
  (∀ x, x ∈ collection name st' → get x "id" ≠ VStr id) ∧
  (∀ other, other ≠ name →
     collection other st' = collection other st ∧ durable other st' = durable other st).
Proof.
  intros Hid Hsheet Hne Hfind st' entry.
  destruct (executeDelete_run now st id name Hid Hsheet Hne) as (Hc & Hd & Ho & Hq).
  fold st' in Hc, Hd, Ho, Hq. rewrite Hfind in Hq.
  apply find_some in Hfind as [Hin Heq]. apply strict_eq_true in Heq.
  fold entry in Hq.
  split; [done|]. split; [rewrite Hq; apply merge_entry_elem|]. split; [done|].
  split; [intros k Hk; simpl; by rewrite lookup_insert_ne|].
  split.
  { intros Htruthy. simpl. apply insert_id. unfold js_or. rewrite Htruthy.
    unfold get in *. destruct (r !! "ID"); [done|]. simpl in Htruthy. discriminate. }
  split; [by apply list_elem_of_In|]. split; [done|]. split; [by rewrite Hd, Hc|].
  split; [|done].
  intros x Hx. rewrite Hc in Hx. apply list_elem_of_In, filter_In in Hx as [_ Hx].
  apply negb_true_iff in Hx. intros E. rewrite E in Hx. simpl in Hx.
  by rewrite bool_decide_eq_true_2 in Hx.
Qed.

(** ** The state variables and the durable store agree

    The statements above that go through [updateLocalItem] assume that
    the state variable of a collection agrees with its durable copy.  The
    load effect establishes this and every handler preserves it. *)

Ltac coherent_cases Hcoh :=
  intros name; pose proof (Hcoh Products) as HP; pose proof (Hcoh Sales) as HS;
  pose proof (Hcoh Expenses) as HE; pose proof (Hcoh Customers) as HC;
  unfold coherent, durable in *; simpl in HP, HS, HE, HC.

Lemma coherent_loadInitialData st name : coherent name (loadInitialData st).
Proof.
  unfold coherent, durable, loadInitialData.
  match goal with |- context [if ?b then _ else _] => destruct b end;
    by destruct name.
Qed.

Lemma coherent_handleSaveItem clk data st :
  (∀ name, coherent name st) → ∀ name, coherent name (handleSaveItem clk data st).
Proof.
  intros Hcoh. coherent_cases Hcoh. unfold handleSaveItem.
  destruct (editingItem st), (activeTab st);
    match goal with |- context [if ?b then _ else _] => destruct b end;
    destruct name; simpl; congruence.
Qed.

Lemma coherent_handleSaleSubmit clk saleData customerData st :
  (∀ name, coherent name st) →
  ∀ name, coherent name (handleSaleSubmit clk saleData customerData st).
Proof.
  intros Hcoh. coherent_cases Hcoh. unfold handleSaleSubmit.
  destruct (findIndex _ (products st)) as [i|]; [destruct (products st !! i)|];
    (destruct (List.find _ (customers st)) as [c|]);
    match goal with |- context [if ?b then _ else _] => destruct b end;
    destruct name; simpl; rewrite ?replace_idem by (by get_simpl); congruence.
Qed.

Lemma coherent_executeDelete now st :
  (∀ name, coherent name st) → ∀ name, coherent name (executeDelete now st).
Proof.
  intros Hcoh. coherent_cases Hcoh. unfold executeDelete, queueDelete.
  destruct (dc_id (deleteConfirmation st)) as [id|],
    (dc_sheet (deleteConfirmation st)) as [tab|]; try by destruct name.
  destruct (String.eqb id ""); [by destruct name|].
  destruct tab; simpl;
    match goal with |- context [List.find ?f ?l] => destruct (List.find f l) end;
    match goal with |- context [if ?b then _ else _] => destruct b end;
    destruct name; simpl; congruence.
Qed.

Lemma coherent_handleSync {G : Type}
    (postDataToSheet : SheetName → Item → Action → G → G * Outcome unit)
    (fetchRemoteSheetData : SheetName → G → G * Outcome (option (list Item)))
    (freshNotificationId : nat → string) force targetSheets g st :
  (∀ name, coherent name st) →
  ∀ name, coherent name
    (handleSync postDataToSheet fetchRemoteSheetData freshNotificationId
       force targetSheets (g, st)).2.
Proof.
  intros Hcoh name. unfold coherent in *.
  destruct (navigator_onLine st) eqn:Hon.
  2:{ unfold handleSync. rewrite Hon. apply Hcoh. }
  destruct (decide (status st ≠ SYNCING ∨ force = true)) as [Hguard|Hguard].
  - destruct (handleSync_run postDataToSheet fetchRemoteSheetData freshNotificationId
                force targetSheets g st Hon Hguard) as (_ & _ & Hc & Hd & _).
    rewrite Hc, Hd, Hcoh. done.
  - unfold handleSync. rewrite Hon. simpl.
    destruct force; [exfalso; apply Hguard; by right|].
    rewrite bool_decide_eq_true_2; [apply Hcoh|].
    destruct (decide (status st = SYNCING)); [done|]. exfalso. apply Hguard. by left.
Qed.

(** ** The scenarios of the specification, by computation *)

(** Bread in stock 10, 3 sold: stock 7 and a sale record of quantity 3. *)
Example bread_three_sold :
  (λ p, get p "Stock") <$> products afterFirstSale = [VNum 7] ∧
  (λ s, get s "Quantity") <$> sales afterFirstSale = [VNum 3].
Proof. by vm_compute. Qed.

(** Then 20 sold: stock 0, not a negative number. *)
Example bread_stock_clamped :
  (λ p, get p "Stock") <$> products afterSecondSale = [VNum 0].
Proof. by vm_compute. Qed.

(** Two sales to the phone 0600000000, totals 50 then 30, the form of the
    first one carrying the total 50 for the new customer: one customer
    record, with the cumulative total 80. *)
Example two_sales_one_customer :
  (λ c, (get c "Phone", get c "TotalPurchases")) <$> customers afterSecondSale
    = [(VStr "0600000000", VNum 80)].
Proof. by vm_compute. Qed.

(** ** Where the code departs from a claim *)

(** *** The drain loop, whatever the removal *)

(** The drain loop of [handleSync] is the loop over [removeFromQueue]. *)
Lemma processQueue_with_removeFromQueue {G : Type}
    (postDataToSheet : SheetName → Item → Action → G → G * Outcome unit)
    (freshNotificationId : nat → string) queue w :
  processQueue postDataToSheet freshNotificationId queue w =
  processQueueWith postDataToSheet freshNotificationId removeFromQueue queue w.
Proof.
  revert w. induction queue as [|item rest IH]; intros [g st]; [done|].
  simpl. destruct (postDataToSheet _ _ _ g) as [g1 [[]|]]; apply IH.
Qed.

(** What a pass that runs leaves in the queue is what its drain loop
    leaves: the pull phase does not touch the queue. *)
Lemma pass_queue_is_drain_queue {G : Type}
    (postDataToSheet : SheetName → Item → Action → G → G * Outcome unit)
    (fetchRemoteSheetData : SheetName → G → G * Outcome (option (list Item)))
    (freshNotificationId : nat → string) force targetSheets g st :
  navigator_onLine st = true →
  status st ≠ SYNCING ∨ force = true →
  queueOf
    (handleSync postDataToSheet fetchRemoteSheetData freshNotificationId
       force targetSheets (g, st)).2 =
  queueOf
    (processQueueWith postDataToSheet freshNotificationId removeFromQueue
       (queueOf st) (g, st)).2.
Proof.
  intros Hon Hguard.
  destruct (handleSync_run postDataToSheet fetchRemoteSheetData freshNotificationId
              force targetSheets g st Hon Hguard) as (_ & -> & _).
  rewrite <- processQueue_with_removeFromQueue.
  by destruct (processQueue_spec postDataToSheet freshNotificationId (queueOf st) g st)
    as (_ & -> & _).
Qed.


(** The same defect on a session, with the storage service as the
    specification describes it.  Two sales to the same buyer are recorded
    one millisecond apart.  The queue then holds the update of the
    customer the first sale created, under the id "1001", and the second
    sale, under the same id "1001".  The endpoint rejects the deliveries
    to the Customers sheet: the customer entry is the one rejected entry
    of the pass, and the sale of id "1001" is delivered.  The queue is
    empty at the end: the rejected entry has not remained. *)
Lemma rejected_entry_lost_on_shared_id :
  keysOf (queueOf nextMillisecondSale)
    = [(Sales, ADD, VStr "1000"); (Products, UPDATE, VStr "1");
       (Customers, UPDATE, VStr "1001"); (Sales, ADD, VStr "1001")] ∧
  keysOf (undelivered (countingPost (Some Customers)) (queueOf nextMillisecondSale) 0%nat)
    = [(Customers, UPDATE, VStr "1001")] ∧
  queueOf passOverSharedId.2 = [].
Proof. repeat split; by vm_compute. Qed.


(** C7, counterexample.  The products have been pulled from the
    endpoint.  One of them has the empty string for id; its deletion is
    confirmed: [executeDelete] returns the state it was given, nothing is
    enqueued and the record is still there.  Another one has no "ID"
    property; it is deleted: the payload of the DELETE entry is not the
    record, it has one property more. *)
Lemma delete_blank_id_or_missing_ID :
  (blankIdRow ∈ products deletingBlankIdRow ∧
   dc_id (deleteConfirmation deletingBlankIdRow) = Some "" ∧
   dc_sheet (deleteConfirmation deletingBlankIdRow) = Some Products ∧
   executeDelete 9 deletingBlankIdRow = deletingBlankIdRow) ∧
  (remoteRow ∈ products deletingRemoteRow ∧
   queueOf (executeDelete 9 deletingRemoteRow)
     = [mkSyncQueueItem (VStr "7") DELETE Products (<["ID" := VStr "7"]> remoteRow) 9] ∧
   <["ID" := VStr "7"]> remoteRow ≠ remoteRow).
Proof.
  split; [split; [|split; [|split]]|split; [|split]].
  - apply (bool_decide_unpack _). by vm_compute.
  - reflexivity.
  - reflexivity.
  - reflexivity.
  - apply (bool_decide_unpack _). by vm_compute.
  - by vm_compute.
  - intros H. apply (f_equal (λ m : Item, m !! "ID")) in H. by vm_compute in H.
Qed.

(** C9, counterexample.  The component was mounted online, went offline,
    a product was added, connectivity came back.  The listener has set
    the status to ONLINE and scheduled its callback; the flag
    [isInitialized] is set, so the callback, when it fires, leaves the
    component and the endpoint as they are (the endpoint has counted no
    call) although an entry is pending; the load effect, run again,
    schedules nothing either.  A sync at that point would make five
    calls. *)
Lemma reconnection_schedules_no_sync :
  status addedOffline = OFFLINE ∧
  status backOnline = ONLINE ∧
  isInitialized backOnline = true ∧
  length (queueOf backOnline) = 1%nat ∧
  timers backOnline = timers addedOffline ++ [(3000%Z, CallHandleSyncUnlessInitialized)] ∧
  runTimer (countingPost None) (countingFetch remoteRows None) notificationIds
    CallHandleSyncUnlessInitialized (0%nat, backOnline) = (0%nat, backOnline) ∧
  timers (loadInitialData backOnline) = timers backOnline ∧
  reliablePass.1 = 5%nat.
Proof. repeat split; by vm_compute. Qed.

(** ** The statements at concrete inputs *)

Lemma enqueue_latest_wins_witness :
  q_id customerDeletion ≠ VNaN ∧
  length (live customerDeletion (getSyncQueue (localStorage mountedOnline))) ≤ 1 ∧
  Forall (λ x, same_key x customerDeletion = false) [saleEntry] ∧
  live customerDeletion
    (getSyncQueue
       (enqueueAll ([customerEntry; saleEntry; customerUpdate]
                      ++ customerDeletion :: [saleEntry])
          (localStorage mountedOnline)))
  = [customerDeletion].
Proof.
  assert (H1 : q_id customerDeletion ≠ VNaN) by done.
  assert (H2 : length (live customerDeletion (getSyncQueue (localStorage mountedOnline)))
               ≤ 1) by (vm_compute; lia).
  assert (H3 : Forall (λ x, same_key x customerDeletion = false) [saleEntry])
    by (repeat constructor).
  exact (conj H1 (conj H2 (conj H3 (enqueue_latest_wins _ _ _ _ H1 H2 H3)))).
Defined.

Lemma full_pass_with_reliable_gateway_witness :
  navigator_onLine backOnline = true ∧
  (status backOnline ≠ SYNCING ∨ true = true) ∧
  queueOf reliablePass.2 = [] ∧
  collection Products reliablePass.2 = remoteRows Products ∧
  durable Products reliablePass.2 = remoteRows Products.
Proof.
  assert (H1 : navigator_onLine backOnline = true) by reflexivity.
  assert (H2 : status backOnline ≠ SYNCING ∨ true = true) by (by right).
  assert (H3 : ∀ name, name ∈ default [Products; Sales; Expenses; Customers] None).
  { intros []; simpl; repeat constructor. }
  assert (H4 : Forall (λ e, q_id e ≠ VNaN) (queueOf backOnline)).
  { apply Forall_forall. intros e He. vm_compute in He.
    apply list_elem_of_singleton in He. by subst e. }
  assert (H5 : ∀ sheet payload action g,
             (countingPost None sheet payload action g).2 = Resolved ()) by done.
  assert (H6 : ∀ name g, ∃ data,
             (countingFetch remoteRows None name g).2 = Resolved (Some data)).
  { intros name g. by eexists. }
  destruct (full_pass_with_reliable_gateway (countingPost None)
              (countingFetch remoteRows None) notificationIds true None 0%nat backOnline
              H1 H2 H3 H4 H5 H6) as [Hq Hrows].
  destruct (Hrows Products) as (data & Hdata & Hc & Hd).
  simpl in Hdata. injection Hdata as <-.
  exact (conj H1 (conj H2 (conj Hq (conj Hc Hd)))).
Defined.

Lemma sync_pass_isolates_failures_witness :
  navigator_onLine afterSecondSale = true ∧
  (status afterSecondSale ≠ SYNCING ∨ true = true) ∧
  queueOf flakyPass.2
    = undelivered (countingPost (Some Products)) (queueOf afterSecondSale) 0%nat ∧
  collection Sales flakyPass.2 = collection Sales afterSecondSale ∧
  collection Products flakyPass.2 = remoteRows Products.
Proof.
  assert (H1 : navigator_onLine afterSecondSale = true) by reflexivity.
  assert (H2 : status afterSecondSale ≠ SYNCING ∨ true = true) by (by right).
  destruct (sync_pass_isolates_failures (countingPost (Some Products))
              (countingFetch remoteRows (Some Sales)) notificationIds true None 0%nat
              afterSecondSale H1 H2) as (_ & Hq & _ & Hpull).
  assert (Hnd : NoDup (q_id <$> queueOf afterSecondSale)).
  { apply (bool_decide_unpack _). by vm_compute. }
  assert (Hids : Forall (λ e, q_id e ≠ VNaN) (queueOf afterSecondSale)).
  { apply (bool_decide_unpack _). by vm_compute. }
  destruct (Hpull Sales ltac:(simpl; repeat constructor)) as [Hrej _].
  destruct (Hpull Products ltac:(simpl; repeat constructor)) as [_ Hres].
  exact (conj H1 (conj H2 (conj (Hq Hnd Hids)
           (conj (proj1 (Hrej eq_refl)) (proj1 (Hres _ eq_refl)))))).
Defined.

Lemma sync_pass_ends_online_witness :
  navigator_onLine afterSecondSale = true ∧
  (status afterSecondSale ≠ SYNCING ∨ true = true) ∧
  status flakyPass.2 = ONLINE.
Proof.
  assert (H1 : navigator_onLine afterSecondSale = true) by reflexivity.
  assert (H2 : status afterSecondSale ≠ SYNCING ∨ true = true) by (by right).
  exact (conj H1 (conj H2
           (sync_pass_ends_online (countingPost (Some Products))
              (countingFetch remoteRows (Some Sales)) notificationIds true None 0%nat
              afterSecondSale H1 H2))).
Defined.

Lemma handleSync_offline_changes_nothing_witness :
  navigator_onLine addedOffline = false ∧
  handleSync (countingPost None) (countingFetch remoteRows None) notificationIds
    true None (0%nat, addedOffline) = (0%nat, addedOffline).
Proof.
  assert (H1 : navigator_onLine addedOffline = false) by reflexivity.
  exact (conj H1
           (handleSync_offline_changes_nothing (countingPost None)
              (countingFetch remoteRows None) notificationIds true None 0%nat
              addedOffline H1)).
Defined.

Lemma sale_decrements_stock_witness :
  findIndex (λ p, strict_eq (get p "Name") (get (saleOf 3 50) "ProductName"))
    (products bakery) = Some 0%nat ∧
  products bakery !! 0%nat = Some bread ∧
  coherent Products bakery ∧
  get bread "id" ≠ VNaN ∧
  get bread "Stock" = VNum 10 ∧
  get (saleOf 3 50) "Quantity" = VNum 3 ∧
  ∃ p', products afterFirstSale !! 0%nat = Some p' ∧ get p' "Stock" = VNum 7.
Proof.
  assert (H1 : findIndex (λ p, strict_eq (get p "Name") (get (saleOf 3 50) "ProductName"))
                 (products bakery) = Some 0%nat) by reflexivity.
  assert (H2 : products bakery !! 0%nat = Some bread) by reflexivity.
  assert (H3 : coherent Products bakery) by reflexivity.
  assert (H4 : get bread "id" ≠ VNaN) by (by vm_compute).
  assert (H5 : get bread "Stock" = VNum 10) by reflexivity.
  assert (H6 : get (saleOf 3 50) "Quantity" = VNum 3) by reflexivity.
  destruct (sale_decrements_stock (clockAt 1000) (saleOf 3 50) (buyer 50) bakery
              0%nat bread 10 3 H1 H2 H3 H4 H5 H6) as ((p' & Hp' & Hstock & _) & _).
  exact (conj H1 (conj H2 (conj H3 (conj H4 (conj H5 (conj H6
           (ex_intro _ p' (conj Hp' Hstock)))))))).
Defined.

Lemma sale_updates_existing_customer_witness :
  List.find (λ c, strict_eq (get c "Phone") (get (buyer 30) "Phone"))
    (customers afterFirstSale) = Some knownBuyer ∧
  coherent Customers afterFirstSale ∧
  get knownBuyer "id" ≠ VNaN ∧
  get knownBuyer "TotalPurchases" = VNum 50 ∧
  get (saleOf 20 30) "Total" = VNum 30 ∧
  ∃ c', (∃ i, customers afterFirstSale !! i = Some knownBuyer ∧
              customers afterSecondSale !! i = Some c') ∧
        length (customers afterSecondSale) = length (customers afterFirstSale) ∧
        get c' "TotalPurchases" = VNum 80.
Proof.
  assert (H1 : List.find (λ c, strict_eq (get c "Phone") (get (buyer 30) "Phone"))
                 (customers afterFirstSale) = Some knownBuyer) by reflexivity.
  assert (H2 : coherent Customers afterFirstSale) by reflexivity.
  assert (H3 : get knownBuyer "id" ≠ VNaN) by (by vm_compute).
  assert (H4 : get knownBuyer "TotalPurchases" = VNum 50) by reflexivity.
  assert (H5 : get (saleOf 20 30) "Total" = VNum 30) by reflexivity.
  destruct (sale_updates_existing_customer (clockAt 2000) (saleOf 20 30) (buyer 30)
              afterFirstSale knownBuyer 50 30 H1 H2 H3 H4 H5)
    as (Hlen & _ & _ & i & c' & Hi & Hi' & Htotal & _).
  exact (conj H1 (conj H2 (conj H3 (conj H4 (conj H5
           (ex_intro _ c' (conj (ex_intro _ i (conj Hi Hi')) (conj Hlen Htotal)))))))).
Defined.

Lemma delete_removes_and_enqueues_witness :
  dc_id (deleteConfirmation deletingBread) = Some "1" ∧
  dc_sheet (deleteConfirmation deletingBread) = Some Products ∧
  "1" ≠ "" ∧
  List.find (λ i, strict_eq (get i "id") (VStr "1")) (collection Products deletingBread)
    = Some bread ∧
  mkSyncQueueItem (VStr "1") DELETE Products bread 9
    ∈ queueOf (executeDelete 9 deletingBread) ∧
  (∀ x, x ∈ products (executeDelete 9 deletingBread) → get x "id" ≠ VStr "1").
Proof.
  assert (H1 : dc_id (deleteConfirmation deletingBread) = Some "1") by reflexivity.
  assert (H2 : dc_sheet (deleteConfirmation deletingBread) = Some Products)
    by reflexivity.
  assert (H3 : "1" ≠ "") by done.
  assert (H4 : List.find (λ i, strict_eq (get i "id") (VStr "1"))
                 (collection Products deletingBread) = Some bread) by reflexivity.
  destruct (delete_removes_and_enqueues 9 deletingBread "1" Products bread H1 H2 H3 H4)
    as (_ & Hin & _ & _ & _ & _ & _ & _ & Hgone & _).
  exact (conj H1 (conj H2 (conj H3 (conj H4 (conj Hin Hgone))))).
Defined.

Lemma customer_writes_mirror_address_witness :
  coherent Customers afterFirstSale ∧
  customerWritesMirror afterFirstSale afterSecondSale.
Proof.
  assert (H1 : coherent Customers afterFirstSale) by reflexivity.
  destruct (customer_writes_mirror_address afterFirstSale H1) as (_ & _ & _ & Hsale).
  exact (conj H1 (Hsale (clockAt 2000) (saleOf 20 30) (buyer 30))).
Defined.



(** * Further properties of the component *)

Section PassFeedback.

Context {G : Type}.
Variable postDataToSheet : SheetName → Item → Action → G → G * Outcome unit.
Variable fetchRemoteSheetData : SheetName → G → G * Outcome (option (list Item)).
Variable freshNotificationId : nat → string.

Local Abbreviation processQueue := (processQueue postDataToSheet freshNotificationId).
Local Abbreviation handleSync :=
  (handleSync postDataToSheet fetchRemoteSheetData freshNotificationId).
Local Abbreviation executeFetches := (executeFetches fetchRemoteSheetData).
Local Abbreviation fetchStep := (fetchStep fetchRemoteSheetData).
Local Abbreviation deliverAll := (deliverAll postDataToSheet).
Local Abbreviation undelivered := (undelivered postDataToSheet).
Local Abbreviation gatewayAt := (gatewayAt fetchRemoteSheetData).
Local Abbreviation fetchRejected := (fetchRejected fetchRemoteSheetData).
Local Abbreviation anyFetchRejected := (anyFetchRejected fetchRemoteSheetData).
Local Abbreviation deliveryErrors := (deliveryErrors postDataToSheet freshNotificationId).
Local Abbreviation runTimer :=
  (runTimer postDataToSheet fetchRemoteSheetData freshNotificationId).

(** The drain phase, seen from the user: one error notification per
    rejected delivery, in the order of the snapshot, and nothing else of
    the feedback changes. *)
Lemma processQueue_feedback queue g st :
  let w := processQueue queue (g, st) in
  notifications w.2 = notifications st ++ deliveryErrors queue g (notificationSeq st) ∧
  notificationSeq w.2 = (notificationSeq st + length (undelivered queue g))%nat ∧
  timers w.2 = timers st ∧
  showSyncSuccess w.2 = showSyncSuccess st ∧
  queueCount w.2 = queueCount st ∧
  isInitialized w.2 = isInitialized st.
Proof.
  revert g st. induction queue as [|item rest IH]; intros g st; simpl.
  - unfold deliveryErrors. simpl. rewrite app_nil_r, Nat.add_0_r. done.
  - unfold deliveryErrors. simpl.
    destruct (postDataToSheet _ _ _ g) as [g1 [[]|]]; simpl.
    + apply (IH g1 (onStorage (removeFromQueue (q_id item)) st)).
    + match goal with
      | |- context [processQueue rest (g1, ?s)] => specialize (IH g1 s)
      end.
      simpl in IH. destruct IH as (Hn & Hs & Ht & Hss & Hq & Hi).
      rewrite Hn, Hs. unfold deliveryErrors. rewrite <- app_assoc. simpl.
      rewrite Nat.add_0_r. repeat split; try done; try lia.
      do 2 f_equal. apply imap_ext. intros k x _. simpl. do 2 f_equal. lia.
Qed.

Lemma fetchStep_feedback S name g st h :
  ∃ st',
    fetchStep S name (g, st, h) =
      (if bool_decide (name ∈ S) then (fetchRemoteSheetData name g).1 else g, st',
       h || (bool_decide (name ∈ S) &&
             match (fetchRemoteSheetData name g).2 with
             | Rejected => true
             | Resolved _ => false
             end)) ∧
    notifications st' = notifications st ∧
    notificationSeq st' = notificationSeq st ∧
    timers st' = timers st ∧
    showSyncSuccess st' = showSyncSuccess st ∧
    queueCount st' = queueCount st ∧
    isInitialized st' = isInitialized st.
Proof.
  unfold fetchStep, syncSheet. destruct (bool_decide (name ∈ S)); simpl.
  - destruct (fetchRemoteSheetData name g) as [g' [[d|]|]]; simpl;
      eexists; (split; [by rewrite ?orb_false_r, ?orb_true_r|]);
      by destruct name.
  - exists st. by rewrite orb_false_r.
Qed.

Lemma executeFetches_feedback S g st :
  let w := executeFetches S sheetDefinitions (g, st, false) in
  w.2 = anyFetchRejected S g ∧
  notifications w.1.2 = notifications st ∧
  notificationSeq w.1.2 = notificationSeq st ∧
  timers w.1.2 = timers st ∧
  showSyncSuccess w.1.2 = showSyncSuccess st ∧
  queueCount w.1.2 = queueCount st ∧
  isInitialized w.1.2 = isInitialized st.
Proof.
  rewrite executeFetches_steps.
  destruct (fetchStep_feedback S Products g st false)
    as (st1 & -> & N1 & Q1 & T1 & S1 & C1 & I1).
  match goal with
  | |- context [fetchStep S Sales (?g1, _, ?h1)] =>
      destruct (fetchStep_feedback S Sales g1 st1 h1)
        as (st2 & -> & N2 & Q2 & T2 & S2 & C2 & I2)
  end.
  match goal with
  | |- context [fetchStep S Expenses (?g1, _, ?h1)] =>
      destruct (fetchStep_feedback S Expenses g1 st2 h1)
        as (st3 & -> & N3 & Q3 & T3 & S3 & C3 & I3)
  end.
  match goal with
  | |- context [fetchStep S Customers (?g1, _, ?h1)] =>
      destruct (fetchStep_feedback S Customers g1 st3 h1)
        as (st4 & -> & N4 & Q4 & T4 & S4 & C4 & I4)
  end.
  simpl. split; [|repeat split; congruence].
  unfold anyFetchRejected, fetchRejected, gatewayAt, gatewayAfterFetches. simpl.
  rewrite orb_false_r, !orb_assoc. reflexivity.
Qed.

(** What a pass that runs tells the user. *)
Lemma handleSync_feedback force targetSheets g st :
  navigator_onLine st = true →
  status st ≠ SYNCING ∨ force = true →
  let w := handleSync force targetSheets (g, st) in
  let S := default [Products; Sales; Expenses; Customers] targetSheets in
  let failed := anyFetchRejected S (deliverAll (queueOf st) g) in
  notifications w.2 =
    notifications st ++ deliveryErrors (queueOf st) g (notificationSeq st) ++
    (if failed then
       [mkAppNotification
          (freshNotificationId
             (notificationSeq st + length (undelivered (queueOf st) g)))
          warning fetchFailedMessage]
     else []) ∧
  showSyncSuccess w.2 = negb failed ∧
  timers w.2 = timers st ++ (if failed then [] else [(3000%Z, CallHideSyncSuccess)]) ∧
  queueCount w.2 =
    match queueOf st with
    | [] => queueCount st
    | _ :: _ => length (queueOf w.2)
    end ∧
  isInitialized w.2 = isInitialized st.
Proof.
  intros Hon Hguard. unfold handleSync. rewrite Hon. simpl negb. cbv iota.
  assert (bool_decide (status st = SYNCING) && negb force = false) as ->.
  { destruct Hguard as [Hs | ->]; [|by rewrite andb_false_r].
    by rewrite bool_decide_eq_false_2. }
  set (st0 := setShowSyncSuccess false (setStatus SYNCING st)).
  pose proof (processQueue_feedback (queueOf st0) g st0) as Hfb.
  pose proof (processQueue_spec postDataToSheet freshNotificationId (queueOf st0) g st0)
    as Hdrain.
  assert (queueOf st0 = queueOf st) as Hq0 by reflexivity.
  change (getSyncQueue (localStorage st0)) with (queueOf st0).
  assert (∃ st1,
    match queueOf st0 with
    | [] => (g, st0)
    | _ :: _ =>
        let '(g, st) := processQueue (queueOf st0) (g, st0) in
        (g, setQueueCount (length (getSyncQueue (localStorage st))) st)
    end = (deliverAll (queueOf st) g, st1) ∧
    notifications st1 = notifications st ++ deliveryErrors (queueOf st) g (notificationSeq st) ∧
    notificationSeq st1 = (notificationSeq st + length (undelivered (queueOf st) g))%nat ∧
    timers st1 = timers st ∧
    showSyncSuccess st1 = false ∧
    queueCount st1 =
      match queueOf st with [] => queueCount st | _ :: _ => length (queueOf st1) end ∧
    isInitialized st1 = isInitialized st)
    as (st1 & -> & Hn1 & Hs1 & Ht1 & Hss1 & Hc1 & Hi1).
  { rewrite Hq0 in *. destruct (queueOf st) as [|q0 qs] eqn:Hq.
    - exists st0. repeat split; try done. simpl.
      unfold deliveryErrors. simpl. by rewrite app_nil_r.
    - destruct (processQueue (q0 :: qs) (g, st0)) as [g1 st1].
      destruct Hdrain as (Hg & _). change (g1 = deliverAll (q0 :: qs) g) in Hg.
      destruct Hfb as (Hn & Hs & Ht & Hss & _ & Hi).
      eexists. split; [rewrite Hg; reflexivity|].
      split; [exact Hn|]. split; [exact Hs|]. split; [exact Ht|].
      split; [exact Hss|]. split; [reflexivity|exact Hi]. }
  set (S := default [Products; Sales; Expenses; Customers] targetSheets).
  pose proof (executeFetches_feedback S (deliverAll (queueOf st) g) st1) as Hpull.
  pose proof (executeFetches_spec fetchRemoteSheetData S (deliverAll (queueOf st) g) st1)
    as Hpull'.
  destruct (executeFetches S sheetDefinitions (deliverAll (queueOf st) g, st1, false))
    as [[g2 st2] h]. simpl in Hpull, Hpull'.
  destruct Hpull as (Hh & Hn2 & Hs2 & Ht2 & Hss2 & Hc2 & Hi2).
  destruct Hpull' as (_ & _ & _ & Hq2 & _).
  rewrite <- Hh. simpl.
  destruct h; simpl.
  - rewrite Hn2, Hs2, Ht2, Hc2, Hi2, Hn1, Hs1, Ht1, Hc1, Hi1, app_nil_r.
    repeat split; try done.
    + by rewrite <- app_assoc.
    + by rewrite Hss2.
    + destruct (queueOf st); [done|]. by rewrite <- Hq2.
  - rewrite Hn2, Ht2, Hc2, Hi2, Hn1, Ht1, Hc1, Hi1, app_nil_r.
    repeat split; try done.
    destruct (queueOf st); [done|]. by rewrite <- Hq2.
Qed.

(** X1.  The success toast of a pass that runs.  It is shown exactly
    when no fetch of a targeted sheet was rejected; the rejected
    deliveries of the drain phase do not withhold it.  When it is shown,
    one timer of three seconds is set, which hides it again; when it is
    not, no timer is set. *)
Theorem pass_success_toast force targetSheets g st :
  navigator_onLine st = true →
  status st ≠ SYNCING ∨ force = true →
  let w := handleSync force targetSheets (g, st) in
  let S := default [Products; Sales; Expenses; Customers] targetSheets in
  let failed := anyFetchRejected S (deliverAll (queueOf st) g) in
  showSyncSuccess w.2 = negb failed ∧
  timers w.2 = timers st ++ (if failed then [] else [(3000%Z, CallHideSyncSuccess)]) ∧
  showSyncSuccess (runTimer CallHideSyncSuccess w).2 = false.
Proof.
  intros Hon Hguard w S failed.
  destruct (handleSync_feedback force targetSheets g st Hon Hguard)
    as (_ & Hs & Ht & _).
  split; [exact Hs|]. split; [exact Ht|]. reflexivity.
Qed.

(** X2.  The notifications of a pass that runs.  The pass keeps the
    notifications it finds and appends one error per rejected delivery,
    in the order of the queue, each naming the action and the sheet of
    its entry, and then one warning if a fetch was rejected, whatever the
    number of rejected fetches.  It dismisses nothing and schedules no
    dismissal. *)
Theorem pass_notifications force targetSheets g st :
  navigator_onLine st = true →
  status st ≠ SYNCING ∨ force = true →
  let w := handleSync force targetSheets (g, st) in
  let S := default [Products; Sales; Expenses; Customers] targetSheets in
  let failed := anyFetchRejected S (deliverAll (queueOf st) g) in
  let rejected := undelivered (queueOf st) g in
  notifications w.2 =
    notifications st
    ++ imap (λ k item,
               mkAppNotification (freshNotificationId (notificationSeq st + k)) error
                 (deliveryFailedMessage item))
         rejected
    ++ (if failed then
          [mkAppNotification
             (freshNotificationId (notificationSeq st + length rejected))
             warning fetchFailedMessage]
        else []) ∧
  Forall (λ t, ∀ id, t.2 ≠ CallDismissNotification id)
    (drop (length (timers st)) (timers w.2)).
Proof.
  intros Hon Hguard w S failed rejected.
  destruct (handleSync_feedback force targetSheets g st Hon Hguard)
    as (Hn & _ & Ht & _).
  split; [exact Hn|].
  fold w in Ht. rewrite Ht, drop_app_length.
  fold S. fold failed. destruct failed; repeat constructor. done.
Qed.

(** X3.  A pass pulls the targeted sheets only: the collection of a sheet
    that is not among the targets is the same after the pass as before,
    in memory and in the durable store, whether the pass runs or is held
    back by one of its guards. *)
Theorem targeted_pass_spares_other_sheets force S g st n :
  n ∉ S →
  let w := handleSync force (Some S) (g, st) in
  collection n w.2 = collection n st ∧ durable n w.2 = durable n st.
Proof.
  intros Hn w. subst w.
  destruct (navigator_onLine st) eqn:Hon.
  2:{ unfold handleSync. by rewrite Hon. }
  destruct (decide (status st ≠ SYNCING ∨ force = true)) as [Hguard|Hguard].
  - destruct (handleSync_run postDataToSheet fetchRemoteSheetData freshNotificationId
                force (Some S) g st Hon Hguard) as (_ & _ & Hc & Hd & _).
    rewrite Hc, Hd. simpl. by rewrite bool_decide_eq_false_2.
  - unfold handleSync. rewrite Hon. simpl.
    destruct force; [exfalso; apply Hguard; by right|].
    rewrite bool_decide_eq_true_2; [done|].
    destruct (decide (status st = SYNCING)); [done|]. exfalso. apply Hguard. by left.
Qed.

End PassFeedback.

(** ** What every session preserves *)

Lemma counted_loadInitialData st : counted (loadInitialData st).
Proof.
  unfold counted, loadInitialData.
  by match goal with |- context [if ?b then _ else _] => destruct b end.
Qed.

Lemma counted_handleSaveItem clk data st : counted (handleSaveItem clk data st).
Proof.
  unfold counted, handleSaveItem.
  destruct (editingItem st), (activeTab st);
    by match goal with |- context [if ?b then _ else _] => destruct b end.
Qed.

Lemma counted_handleSaleSubmit clk saleData customerData st :
  counted (handleSaleSubmit clk saleData customerData st).
Proof.
  unfold counted, handleSaleSubmit.
  destruct (findIndex _ (products st)) as [i|]; [destruct (products st !! i)|];
    (destruct (List.find _ (customers st)) as [c|]);
    by match goal with |- context [if ?b then _ else _] => destruct b end.
Qed.

Lemma counted_executeDelete now st : counted st → counted (executeDelete now st).
Proof.
  intros Hst. unfold counted, executeDelete, queueDelete in *.
  destruct (dc_id (deleteConfirmation st)) as [id|],
    (dc_sheet (deleteConfirmation st)) as [tab|]; try done.
  destruct (String.eqb id ""); [done|].
  destruct tab; simpl;
    match goal with |- context [List.find ?f ?l] => destruct (List.find f l) end;
    by match goal with |- context [if ?b then _ else _] => destruct b end.
Qed.

Lemma counted_checkStockLevels productList st :
  counted st → counted (checkStockLevels productList st).
Proof.
  unfold counted, checkStockLevels.
  by repeat match goal with |- context [match List.filter ?f ?l with _ => _ end] =>
    destruct (List.filter f l) end.
Qed.

Lemma coherent_checkStockLevels productList st name :
  coherent name st → coherent name (checkStockLevels productList st).
Proof.
  unfold coherent, checkStockLevels.
  repeat match goal with |- context [match List.filter ?f ?l with _ => _ end] =>
    destruct (List.filter f l) end; by destruct name.
Qed.

Section SessionInvariant.

Context {G : Type}.
Variable postDataToSheet : SheetName → Item → Action → G → G * Outcome unit.
Variable fetchRemoteSheetData : SheetName → G → G * Outcome (option (list Item)).
Variable freshNotificationId : nat → string.

Local Abbreviation handleSync :=
  (handleSync postDataToSheet fetchRemoteSheetData freshNotificationId).
Local Abbreviation runTimer :=
  (runTimer postDataToSheet fetchRemoteSheetData freshNotificationId).
Local Abbreviation step := (step postDataToSheet fetchRemoteSheetData freshNotificationId).
Local Abbreviation session :=
  (session postDataToSheet fetchRemoteSheetData freshNotificationId).

Lemma counted_handleSync force targetSheets g st :
  counted st → counted (handleSync force targetSheets (g, st)).2.
Proof.
  intros Hst. unfold counted in *.
  destruct (navigator_onLine st) eqn:Hon.
  2:{ unfold handleSync. by rewrite Hon. }
  destruct (decide (status st ≠ SYNCING ∨ force = true)) as [Hguard|Hguard].
  - destruct (handleSync_feedback postDataToSheet fetchRemoteSheetData
                freshNotificationId force targetSheets g st Hon Hguard)
      as (_ & _ & _ & Hc & _).
    destruct (handleSync_run postDataToSheet fetchRemoteSheetData freshNotificationId
                force targetSheets g st Hon Hguard) as (_ & Hq & _).
    rewrite Hc. destruct (queueOf st) eqn:E; [|done].
    rewrite Hq, Hst. done.
  - unfold handleSync. rewrite Hon. simpl.
    destruct force; [exfalso; apply Hguard; by right|].
    rewrite bool_decide_eq_true_2; [done|].
    destruct (decide (status st = SYNCING)); [done|]. exfalso. apply Hguard. by left.
Qed.

Lemma runTimer_invariant callback g st :
  (∀ name, coherent name st) ∧ counted st →
  (∀ name, coherent name (runTimer callback (g, st)).2) ∧
  counted (runTimer callback (g, st)).2.
Proof.
  intros [Hcoh Hcnt].
  destruct callback as [force targets| |id|]; unfold runTimer; cbn [fst snd].
  - split; [by apply coherent_handleSync | by apply counted_handleSync].
  - destruct (isInitialized st); [done|].
    split; [by apply coherent_handleSync | by apply counted_handleSync].
  - split; [|done]. intros name. specialize (Hcoh name). by destruct name.
  - split; [|done]. intros name. specialize (Hcoh name). by destruct name.
Qed.

(** One event keeps the state variables equal to the durable copies and
    the count equal to the length of the queue. *)
Lemma step_invariant ev g st m :
  (∀ name, coherent name st) ∧ counted st →
  (∀ name, coherent name (step ev (g, st, m)).1.2) ∧
  counted (step ev (g, st, m)).1.2.
Proof.
  intros [Hcoh Hcnt]. destruct ev; unfold step; cbn [fst snd].
  - split; [intros; apply coherent_loadInitialData | apply counted_loadInitialData].
  - unfold stockEffect. destruct (products st) eqn:E; [done|]. rewrite <- E.
    split; [intros; by apply coherent_checkStockLevels | by apply counted_checkStockLevels].
  - split; [|done]. intros name. specialize (Hcoh name). by destruct name.
  - split; [|done]. intros name. specialize (Hcoh name). by destruct name.
  - split; [|done]. intros name. specialize (Hcoh name). by destruct name.
  - pose proof (coherent_handleSync postDataToSheet fetchRemoteSheetData
                  freshNotificationId true None g st Hcoh) as H1.
    pose proof (counted_handleSync true None g st Hcnt) as H2.
    by destruct (handleSync true None (g, st)).
  - split; [|done]. intros name. specialize (Hcoh name). by destruct name.
  - split; [|done]. intros name. specialize (Hcoh name). by destruct name.
  - split; [|done]. intros name. specialize (Hcoh name). by destruct name.
  - done.
  - done.
  - split; [by apply coherent_handleSaveItem | apply counted_handleSaveItem].
  - split; [by apply coherent_handleSaleSubmit | apply counted_handleSaleSubmit].
  - split; [|done]. intros name. specialize (Hcoh name). by destruct name.
  - split; [|done]. intros name. specialize (Hcoh name). by destruct name.
  - split; [by apply coherent_executeDelete | by apply counted_executeDelete].
  - destruct (timers st !! i) as [[ms callback]|]; [|done].
    pose proof (runTimer_invariant callback g st (conj Hcoh Hcnt)) as H.
    by destruct (runTimer callback (g, st)).
Qed.

Lemma session_invariant events w :
  (∀ name, coherent name w.1.2) ∧ counted w.1.2 →
  (∀ name, coherent name (session events w).1.2) ∧ counted (session events w).1.2.
Proof.
  revert w. induction events as [|ev events IH]; intros w Hw; [done|].
  unfold session. cbn [foldl]. apply IH. destruct w as [[g st] m]. by apply step_invariant.
Qed.

(** X4.  Once the load effect has run, the state variable of every
    collection equals its durable copy, and stays so whatever happens
    next: effects, connectivity changes, every control of the user and
    every timer, in any order and against any endpoint, each event
    running to its end before the next one. *)
Theorem session_memory_equals_store events g st m name :
  coherent name (session (LoadEffect :: events) (g, st, m)).1.2.
Proof.
  unfold session. cbn [foldl]. apply session_invariant. unfold step. cbn [fst snd].
  split; [intros; apply coherent_loadInitialData | apply counted_loadInitialData].
Qed.

(** X5.  Once the load effect has run, the count of pending changes
    that the header shows is the length of the stored queue, and stays so
    whatever happens next; a pass over an empty queue, which does not
    write the count, included. *)
Theorem session_count_is_queue_length events g st m :
  queueCount (session (LoadEffect :: events) (g, st, m)).1.2 =
  length (queueOf (session (LoadEffect :: events) (g, st, m)).1.2).
Proof.
  unfold session. cbn [foldl]. apply session_invariant. unfold step. cbn [fst snd].
  split; [intros; apply coherent_loadInitialData | apply counted_loadInitialData].
Qed.

End SessionInvariant.

(** ** Notifications *)

Lemma filter_all {A} (P : A → Prop) `{∀ x, Decision (P x)} (l : list A) :
  Forall P l → filter P l = l.
Proof. induction 1 as [|x l Hx _ IH]; [done|]. by rewrite filter_cons_True, IH. Qed.

(** X6.  A notification and its dismissal.  [addNotification] appends
    the notification under the identifier it draws; dismissing that
    identifier gives the earlier list back, provided no notification
    carried the identifier before.  For an info or a success message one
    timer of four seconds is set, whose callback is this dismissal; for
    an error or a warning no timer is set, so that it stays until the
    user dismisses it. *)
Theorem notification_dismissal_round_trip (freshNotificationId : nat → string)
    msg type st :
  Forall (λ n, n_id n ≠ freshNotificationId (notificationSeq st)) (notifications st) →
  let id := freshNotificationId (notificationSeq st) in
  let st' := addNotification freshNotificationId msg type st in
  notifications st' = notifications st ++ [mkAppNotification id type msg] ∧
  notifications (dismissNotification id st') = notifications st ∧
  timers st' =
    timers st ++
    match type with
    | info | success => [(4000%Z, CallDismissNotification id)]
    | error | warning => []
    end.
Proof.
  intros Hfresh id st'. subst st'. unfold addNotification, dismissNotification.
  fold id. destruct type; simpl; rewrite ?app_nil_r.
  all: split; [done|]; split; [|done].
  all: rewrite filter_app, filter_cons_False, filter_nil, app_nil_r by (simpl; tauto).
  all: by apply filter_all.
Qed.

(** ** Stock alerts *)

Lemma List_filter_idem {A} (f : A → bool) (l : list A) :
  List.filter f (List.filter f l) = List.filter f l.
Proof.
  induction l as [|a l IH]; [done|]. simpl.
  destruct (f a) eqn:E; simpl; rewrite ?E, IH; done.
Qed.

Lemma List_filter_negb_nil {A} (f : A → bool) (l : list A) :
  List.filter f (List.filter (λ x, negb (f x)) l) = [].
Proof.
  induction l as [|a l IH]; [done|]. simpl.
  destruct (f a) eqn:E; simpl; rewrite ?E, IH; done.
Qed.

Lemma List_filter_nil_iff {A} (f : A → bool) (l : list A) :
  List.filter f l = [] ↔ ∀ x, x ∈ l → f x = false.
Proof.
  induction l as [|a l IH]; simpl.
  - split; [intros _ x Hx; by apply elem_of_nil in Hx | done].
  - destruct (f a) eqn:E.
    + split; [done|]. intros H. specialize (H a (list_elem_of_here _ _)). congruence.
    + rewrite IH. split.
      * intros H x [->|Hx]%elem_of_cons; [done | by apply H].
      * intros H x Hx. apply H. by right.
Qed.

(** The stock alert that a list of products calls for. *)
Lemma checkStockLevels_notifications productList st :
  ∃ alert,
    notifications (checkStockLevels productList st) =
      alert ++ List.filter (λ n, negb (isStockAlert n)) (notifications st) ∧
    ((∃ msg, alert = [mkAppNotification "stock-out" error msg] ∧
             ∃ p, p ∈ productList ∧ isOutOfStock p = true) ∨
     (∃ msg, alert = [mkAppNotification "stock-low" warning msg] ∧
             (∀ p, p ∈ productList → isOutOfStock p = false) ∧
             ∃ p, p ∈ productList ∧ isLowStock p = true) ∨
     (alert = [] ∧ ∀ p, p ∈ productList → isOutOfStock p = false ∧ isLowStock p = false)).
Proof.
  unfold checkStockLevels.
  destruct (List.filter (λ p, js_le (get p "Stock") 0) productList) as [|o os] eqn:Eo.
  - pose proof (proj1 (List_filter_nil_iff _ _) Eo) as Hout.
    destruct (List.filter (λ p, js_gt (get p "Stock") 0 && js_lt (get p "Stock") 10)
                productList) as [|l ls] eqn:El.
    + pose proof (proj1 (List_filter_nil_iff _ _) El) as Hlow.
      exists []. split; [reflexivity|]. right. right. split; [done|].
      intros p Hp. unfold isLowStock, isOutOfStock. rewrite (Hout p Hp). simpl.
      split; [done|].
      specialize (Hlow p Hp). simpl in Hlow.
      apply andb_false_iff in Hlow as [Hl|Hl]; [|done].
      unfold js_gt, js_lt, js_le in *. specialize (Hout p Hp). simpl in Hout.
      destruct (Number (get p "Stock")); try done. lia.
    + eexists [_]. split; [reflexivity|]. right. left. eexists. split; [done|].
      split; [done|]. exists l.
      assert (In l (List.filter
                      (λ p, js_gt (get p "Stock") 0 && js_lt (get p "Stock") 10)
                      productList)) as Hin by (rewrite El; by left).
      apply filter_In in Hin as [Hin Hl]. apply list_elem_of_In in Hin.
      split; [done|]. unfold isLowStock, isOutOfStock. rewrite (Hout l Hin). simpl.
      by apply andb_true_iff in Hl as [_ Hl].
  - eexists [_]. split; [reflexivity|]. left. eexists. split; [done|]. exists o.
    assert (In o (List.filter (λ p, js_le (get p "Stock") 0) productList)) as Hin
      by (rewrite Eo; by left).
    apply filter_In in Hin as [Hin Ho]. by apply list_elem_of_In in Hin.
Qed.

(** X7.  After a check of the stock levels the notifications hold at
    most one stock alert, and the check leaves every other notification
    where it was. *)
Theorem stock_alert_is_single productList st :
  let st' := checkStockLevels productList st in
  length (List.filter isStockAlert (notifications st')) ≤ 1 ∧
  List.filter (λ n, negb (isStockAlert n)) (notifications st') =
    List.filter (λ n, negb (isStockAlert n)) (notifications st).
Proof.
  intros st'. subst st'.
  destruct (checkStockLevels_notifications productList st)
    as (alert & -> & [(msg & -> & _) | [(msg & -> & _) | [-> _]]]); simpl.
  all: rewrite ?List_filter_negb_nil, ?List_filter_idem; simpl; split; (lia || done).
Qed.

(** X8.  The alert follows the last check: checking a list of products
    after another one gives the state that the last check alone gives.
    In particular a check that is run twice changes nothing the second
    time. *)
Theorem stock_check_last_wins productList earlier st :
  checkStockLevels productList (checkStockLevels earlier st) =
  checkStockLevels productList st.
Proof.
  unfold checkStockLevels.
  repeat match goal with |- context [match List.filter ?f ?l with _ => _ end] =>
    destruct (List.filter f l) end.
  all: destruct st; unfold setNotifications; simpl; f_equal.
  all: rewrite ?List_filter_idem; done.
Qed.

(** X9.  Which alert a check raises.  If some product is out of stock
    the alert is the error [stock-out], and no low-stock warning is
    shown beside it, whatever the number of products that run low;
    otherwise, if some product runs low, it is the warning [stock-low];
    otherwise no stock alert is left, an earlier one included. *)
Theorem stock_alert_priority productList st :
  let after := notifications (checkStockLevels productList st) in
  let others := List.filter (λ n, negb (isStockAlert n)) (notifications st) in
  ((∃ p, p ∈ productList ∧ isOutOfStock p = true) →
     (∃ msg, after = mkAppNotification "stock-out" error msg :: others) ∧
     ∀ n, n ∈ after → n_id n ≠ "stock-low") ∧
  ((∀ p, p ∈ productList → isOutOfStock p = false) →
   (∃ p, p ∈ productList ∧ isLowStock p = true) →
     ∃ msg, after = mkAppNotification "stock-low" warning msg :: others) ∧
  ((∀ p, p ∈ productList → isOutOfStock p = false ∧ isLowStock p = false) →
     after = others ∧ ∀ n, n ∈ after → isStockAlert n = false).
Proof.
  intros after others. subst after.
  assert (∀ n, n ∈ others → isStockAlert n = false) as Hothers.
  { intros n Hn. apply list_elem_of_In, filter_In in Hn as [_ Hn].
    by apply negb_true_iff in Hn. }
  destruct (checkStockLevels_notifications productList st)
    as (alert & -> & [(msg & -> & p & Hp & Hout)
                     | [(msg & -> & Hnone & p & Hp & Hlow) | [-> Hnone]]]).
  - split; [|split].
    + intros _. split; [by exists msg|].
      intros n [->|Hn]%elem_of_cons; [done|].
      intros E. apply Hothers in Hn. unfold isStockAlert in Hn. by rewrite E in Hn.
    + intros H. rewrite (H p Hp) in Hout. discriminate.
    + intros H. destruct (H p Hp) as [H1 _]. rewrite H1 in Hout. discriminate.
  - split; [|split].
    + intros (q & Hq & Hqout). rewrite (Hnone q Hq) in Hqout. discriminate.
    + intros _ _. by exists msg.
    + intros H. destruct (H p Hp) as [_ H2]. rewrite H2 in Hlow. discriminate.
  - split; [|split].
    + intros (q & Hq & Hqout). destruct (Hnone q Hq) as [H1 _]. congruence.
    + intros _ (q & Hq & Hqlow). destruct (Hnone q Hq) as [_ H2]. congruence.
    + intros _. done.
Qed.

(** X10.  The product card and the alert classify a product alike, and
    the sale dialog follows the card.  A product is low on stock for the
    card exactly when the check of the stock levels counts it as low; the
    dialog stays closed for a product that is out of stock and opens on
    any other product; a product whose stock is not a number is neither
    out of stock nor low, so the dialog opens on it. *)
Theorem stock_classes_agree item m :
  isLowStock item = js_gt (get item "Stock") 0 && js_lt (get item "Stock") 10 ∧
  (isOutOfStock item = true → openSaleModal item m = m) ∧
  (isOutOfStock item = false →
     isSaleModalOpen (openSaleModal item m) = true ∧
     selectedProductForSale (openSaleModal item m) = Some item) ∧
  (Number (get item "Stock") = VNaN →
     isOutOfStock item = false ∧ isLowStock item = false).
Proof.
  unfold isLowStock, isOutOfStock, openSaleModal, js_gt, js_lt, js_le.
  destruct (Number (get item "Stock")) as [| |b|z| |s]; simpl; try done.
  destruct (Z.leb_spec z 0), (Z.ltb_spec 0 z), (Z.ltb_spec z 10); simpl;
    repeat split; try done; lia.
Qed.

(** ** Saving the form *)

Lemma get_union_Some (a b : Item) k v : a !! k = Some v → get (a ∪ b) k = v.
Proof. intros H. unfold get. by erewrite lookup_union_Some_l. Qed.

Lemma get_union_None (a b : Item) k : a !! k = None → get (a ∪ b) k = get b k.
Proof. intros H. unfold get. by rewrite lookup_union_r. Qed.

(** What saving the form does when no record is under edition. *)
Lemma handleSaveItem_add clk data st m :
  let tab := activeTab st in
  let st' := handleSaveItem clk data (openAddModal (st, m)).1 in
  ∃ r,
    collection tab st' = r :: collection tab st ∧
    durable tab st' = r :: collection tab st ∧
    (∀ other, other ≠ tab →
       collection other st' = collection other st ∧ durable other st' = durable other st) ∧
    queueOf st' =
      getSyncQueue
        (addToSyncQueue (mkSyncQueueItem (get r "id") ADD tab r (queueNow clk))
           (localStorage st)) ∧
    (∀ k v, data !! k = Some v → k ≠ "Email" → k ≠ "LastPurchase" → get r k = v) ∧
    (data !! "id" = None → get r "id" = VStr (toString (idNow clk))) ∧
    (data !! "ID" = None → get r "ID" = VStr (toString (idNow clk))) ∧
    (data !! "timestamp" = None → get r "timestamp" = VNum (timestampNow clk)).
Proof.
  intros tab st'. subst tab st'. unfold openAddModal, handleSaveItem. simpl.
  destruct (activeTab st) eqn:Htab;
    match goal with |- context [if ?b then _ else _] => destruct b end; simpl.
  all: eexists; split; [reflexivity|]; split; [reflexivity|].
  all: split; [intros other Hother; by destruct other|].
  all: split; [reflexivity|].
  all: split; [intros k v Hk Hk1 Hk2; get_simpl; by apply get_union_Some|].
  all: repeat split; intros Hnone; get_simpl; rewrite get_union_None by done;
    by get_simpl.
Qed.


(** X11.  Saving the form that [openAddModal] has opened.  The new
    record heads the collection of the active tab, in memory and in the
    durable store, the other collections are untouched, and one ADD is
    enqueued whose payload is the record and whose id is the id of the
    record.  The record carries every property of the form (on the
    Customers tab all but the two the handler sets itself); the id, the
    sheet id and the timestamp it generates apply only where the form
    has none, so that a form with an id of its own keeps it. *)
Theorem add_prepends_new_record clk data st m :
  let tab := activeTab st in
  let st' := handleSaveItem clk data (openAddModal (st, m)).1 in
  ∃ r,
    collection tab st' = r :: collection tab st ∧
    durable tab st' = r :: collection tab st ∧
    (∀ other, other ≠ tab →
       collection other st' = collection other st ∧ durable other st' = durable other st) ∧
    queueOf st' =
      getSyncQueue
        (addToSyncQueue (mkSyncQueueItem (get r "id") ADD tab r (queueNow clk))
           (localStorage st)) ∧
    (∀ k v, data !! k = Some v → k ≠ "Email" → k ≠ "LastPurchase" → get r k = v) ∧
    (data !! "id" = None → get r "id" = VStr (toString (idNow clk))) ∧
    (data !! "ID" = None → get r "ID" = VStr (toString (idNow clk))) ∧
    (data !! "timestamp" = None → get r "timestamp" = VNum (timestampNow clk)).
Proof. apply handleSaveItem_add. Qed.

(** What saving the form does to a record under edition. *)
Lemma handleSaveItem_edit clk data item st m :
  data !! "id" = None →
  coherent (activeTab st) st →
  let tab := activeTab st in
  let st' := handleSaveItem clk data (openEditModal item (st, m)).1 in
  ∃ u,
    collection tab st' =
      ((λ x, if strict_eq (get x "id") (get item "id") then u else x)
         <$> collection tab st) ∧
    durable tab st' = collection tab st' ∧
    (∀ other, other ≠ tab →
       collection other st' = collection other st ∧ durable other st' = durable other st) ∧
    queueOf st' =
      getSyncQueue
        (addToSyncQueue (mkSyncQueueItem (get item "id") UPDATE tab u (queueNow clk))
           (localStorage st)) ∧
    get u "id" = get item "id" ∧
    get u "ID" = js_or (get item "ID") (get item "id") ∧
    (∀ k v, data !! k = Some v → k ≠ "ID" → k ≠ "ModifiedAt" → k ≠ "Email" →
            get u k = v) ∧
    (∀ k, data !! k = None → k ≠ "ID" → k ≠ "ModifiedAt" → k ≠ "Email" →
          get u k = get item k).
Proof.
  intros Hnoid Hcoh tab st'. subst tab st'.
  unfold coherent, durable in Hcoh.
  unfold openEditModal, handleSaveItem, setFromUpdateLocalItem, updateLocalItem. simpl.
  destruct (activeTab st) eqn:Htab; simpl in Hcoh;
    match goal with |- context [if ?b then _ else _] => destruct b end; simpl.
  all: rewrite <- Hcoh.
  all: get_simpl; rewrite !(get_union_None data item "id") by done.
  all: eexists; split; [reflexivity|]; split; [reflexivity|].
  all: split; [intros other Hother; by destruct other|].
  all: split; [reflexivity|].
  all: split; [get_simpl; by apply get_union_None|].
  all: split; [by get_simpl|].
  all: split; [intros k v Hk H1 H2 H3; get_simpl; by apply get_union_Some|].
  all: intros k Hk H1 H2 H3; get_simpl; by apply get_union_None.
Qed.

(** X12.  Saving the form that [openEditModal] has opened on a record,
    when the form carries no id of its own and the collection in memory
    agrees with the durable one.  The collection keeps its length and, at
    every position, its id: the records with the id of the edited record
    are replaced where they stand, nothing is added or moved.  The record
    written has the id of the edited record, the properties of the form
    where the form has them and those of the edited record elsewhere, and
    it is the payload of the UPDATE that is enqueued. *)
Theorem edit_replaces_in_place clk data item st m :
  data !! "id" = None →
  coherent (activeTab st) st →
  let tab := activeTab st in
  let st' := handleSaveItem clk data (openEditModal item (st, m)).1 in
  length (collection tab st') = length (collection tab st) ∧
  (λ x, get x "id") <$> collection tab st' = (λ x, get x "id") <$> collection tab st ∧
  durable tab st' = collection tab st' ∧
  ∃ u,
    (∀ i x, collection tab st !! i = Some x →
            collection tab st' !! i =
              Some (if strict_eq (get x "id") (get item "id") then u else x)) ∧
    (∀ k v, data !! k = Some v → k ≠ "ID" → k ≠ "ModifiedAt" → k ≠ "Email" →
            get u k = v) ∧
    (∀ k, data !! k = None → k ≠ "ID" → k ≠ "ModifiedAt" → k ≠ "Email" →
          get u k = get item k) ∧
    queueOf st' =
      getSyncQueue
        (addToSyncQueue (mkSyncQueueItem (get item "id") UPDATE tab u (queueNow clk))
           (localStorage st)).
Proof.
  intros Hnoid Hcoh tab st'.
  destruct (handleSaveItem_edit clk data item st m Hnoid Hcoh)
    as (u & Hc & Hd & _ & Hq & Hid & _ & Hform & Hold).
  fold tab in Hc, Hd, Hq. fold st' in Hc, Hd, Hq.
  split; [by rewrite Hc, length_fmap|]. split; [|split; [done|]].
  - rewrite Hc, <- list_fmap_compose. apply list_fmap_ext. intros _ x _. simpl.
    destruct (strict_eq (get x "id") (get item "id")) eqn:E; [|done].
    apply strict_eq_true in E. congruence.
  - exists u. split; [|done].
    intros i x Hx. by rewrite Hc, list_lookup_fmap, Hx.
Qed.

(** X13.  Saving the edition of a record that the collection no longer
    holds (a pass has replaced the collection since the form was opened,
    or the record was deleted).  Nothing changes in the collection, yet
    an UPDATE for the id of the record is enqueued all the same. *)
Theorem edit_of_missing_record clk data item st m :
  data !! "id" = None →
  coherent (activeTab st) st →
  Forall (λ x, get x "id" ≠ get item "id") (collection (activeTab st) st) →
  let tab := activeTab st in
  let st' := handleSaveItem clk data (openEditModal item (st, m)).1 in
  collection tab st' = collection tab st ∧
  durable tab st' = durable tab st ∧
  ∃ u, queueOf st' =
         getSyncQueue
           (addToSyncQueue (mkSyncQueueItem (get item "id") UPDATE tab u (queueNow clk))
              (localStorage st)).
Proof.
  intros Hnoid Hcoh Hmissing tab st'.
  destruct (handleSaveItem_edit clk data item st m Hnoid Hcoh)
    as (u & Hc & Hd & _ & Hq & _).
  fold tab in Hc, Hd, Hq. fold st' in Hc, Hd, Hq.
  assert (collection tab st' = collection tab st) as Hsame.
  { rewrite Hc. rewrite <- (list_fmap_id (collection tab st)) at 2.
    apply list_fmap_ext. intros i x Hx. simpl.
    rewrite Forall_forall in Hmissing.
    rewrite strict_eq_false; [done|]. apply Hmissing. by eapply list_elem_of_lookup_2. }
  split; [done|]. split; [by rewrite Hd, Hsame|]. by exists u.
Qed.

(** ** Generated ids *)

Lemma pretty_N_go_nonempty (x : N) (s : string) : s ≠ "" → pretty_N_go x s ≠ "".
Proof.
  revert s. induction (N.lt_wf_0 x) as [x _ IH]; intros s Hs.
  destruct (decide (0 < x)%N).
  - rewrite pretty_N_go_step by done. apply IH; [apply N.div_lt; lia | discriminate].
  - assert (x = 0)%N as -> by lia. by rewrite pretty_N_go_0.
Qed.

Lemma pretty_N_nonempty (x : N) : pretty x ≠ "".
Proof.
  unfold pretty, pretty_N. destruct (decide (x = 0%N)); [done|].
  rewrite pretty_N_go_step by lia. by apply pretty_N_go_nonempty.
Qed.

(** The decimal spelling of an integer is not the empty string. *)
Lemma toString_nonempty (z : Z) : toString z ≠ "".
Proof.
  unfold toString, pretty, pretty_Z. destruct z as [|p|p]; [done| |done].
  apply pretty_N_nonempty.
Qed.

(** ** Deleting, again *)

Lemma find_none_of_Forall (k : Value) (l : list Item) :
  Forall (λ x, get x "id" ≠ k) l →
  List.find (λ i, strict_eq (get i "id") k) l = None.
Proof.
  induction 1 as [|x l Hx _ IH]; [done|]. simpl. by rewrite strict_eq_false.
Qed.

Lemma filter_id_of_Forall (k : Value) (l : list Item) :
  Forall (λ x, get x "id" ≠ k) l →
  List.filter (λ i, negb (strict_eq (get i "id") k)) l = l.
Proof.
  induction 1 as [|x l Hx _ IH]; [done|]. simpl. by rewrite strict_eq_false, IH.
Qed.

Lemma find_in_filtered (k : Value) (l : list Item) :
  List.find (λ i, strict_eq (get i "id") k)
    (List.filter (λ i, negb (strict_eq (get i "id") k)) l) = None.
Proof.
  induction l as [|x l IH]; [done|]. simpl.
  destruct (strict_eq (get x "id") k) eqn:E; simpl; by rewrite ?E.
Qed.

Lemma executeDelete_keeps_confirmation now st :
  deleteConfirmation (executeDelete now st) = deleteConfirmation st ∧
  navigator_onLine (executeDelete now st) = navigator_onLine st.
Proof.
  unfold executeDelete, queueDelete.
  destruct (dc_id (deleteConfirmation st)) as [id|],
    (dc_sheet (deleteConfirmation st)) as [tab|]; try done.
  destruct (String.eqb id ""); [done|].
  destruct (navigator_onLine st) eqn:Hon.
  all: destruct tab; simpl;
    match goal with |- context [List.find ?f ?l] => destruct (List.find f l) end;
    simpl; rewrite ?Hon; done.
Qed.

(** X14.  Adding a record and deleting it again.  The form carries no
    id and no record of the tab has the id that is generated.  After the
    deletion the collection of the tab is what it was before the record
    was added, in memory and in the durable store; the queue, though, has
    received two enqueues under the id of the record, the ADD and then a
    DELETE whose payload is the record. *)
Theorem add_then_delete clk data now st m :
  data !! "id" = None →
  Forall (λ x, get x "id" ≠ VStr (toString (idNow clk))) (collection (activeTab st) st) →
  let tab := activeTab st in
  let added := handleSaveItem clk data (openAddModal (st, m)).1 in
  let st' := executeDelete now (openDeleteModal (toString (idNow clk)) tab added) in
  collection tab st' = collection tab st ∧
  durable tab st' = collection tab st ∧
  ∃ r,
    collection tab added = r :: collection tab st ∧
    queueOf st' =
      getSyncQueue
        (enqueueAll
           [mkSyncQueueItem (VStr (toString (idNow clk))) ADD tab r (queueNow clk);
            mkSyncQueueItem (VStr (toString (idNow clk))) DELETE tab
              (<["ID" := js_or (get r "ID") (get r "id")]> r) now]
           (localStorage st)).
Proof.
  intros Hnoid Hfresh tab added st'.
  destruct (handleSaveItem_add clk data st m)
    as (r & Hc & _ & _ & Hq & _ & Hid & _).
  specialize (Hid Hnoid). fold tab in Hc, Hq. fold added in Hc, Hq.
  set (opened := openDeleteModal (toString (idNow clk)) tab added) in *.
  destruct (executeDelete_run now opened (toString (idNow clk)) tab)
    as (Hc' & Hd' & _ & Hq'); [done | done | apply toString_nonempty |].
  fold st' in Hc', Hd', Hq'.
  assert (collection tab opened = r :: collection tab st) as Hopened
    by (rewrite <- Hc; by destruct tab).
  assert (queueOf opened = queueOf added) as Hqo by reflexivity.
  rewrite Hopened in Hc', Hd', Hq'. simpl in Hc', Hd', Hq'.
  rewrite Hid, strict_eq_refl in Hc', Hd', Hq' by done. simpl in Hc', Hd'.
  rewrite filter_id_of_Forall in Hc', Hd' by done.
  split; [done|]. split; [done|]. exists r. split; [done|].
  rewrite Hq', Hqo, Hq, Hid. reflexivity.
Qed.

(** X15.  Confirming a deletion twice.  [executeDelete] leaves the
    confirmation as it is, so the button can run it again for the same id
    and sheet.  The second run finds no record with the id: it removes
    nothing and enqueues nothing; when the browser is online it schedules
    one more pass of the sheet. *)
Theorem second_confirmation_deletes_nothing now1 now2 st id name :
  dc_id (deleteConfirmation st) = Some id →
  dc_sheet (deleteConfirmation st) = Some name →
  id ≠ "" →
  let once := executeDelete now1 st in
  let twice := executeDelete now2 once in
  (∀ n, collection n twice = collection n once) ∧
  (∀ n, durable n twice = durable n once) ∧
  queueOf twice = queueOf once ∧
  timers twice =
    timers once ++
    (if navigator_onLine st then [(1000%Z, CallHandleSync true (Some [name]))] else []).
Proof.
  intros Hid Hsheet Hne once twice.
  destruct (executeDelete_run now1 st id name Hid Hsheet Hne) as (Hc1 & Hd1 & _).
  fold once in Hc1, Hd1.
  destruct (executeDelete_keeps_confirmation now1 st) as [Hdc Hon]. fold once in Hdc, Hon.
  assert (dc_id (deleteConfirmation once) = Some id) as Hid' by (by rewrite Hdc).
  assert (dc_sheet (deleteConfirmation once) = Some name) as Hsheet' by (by rewrite Hdc).
  destruct (executeDelete_run now2 once id name Hid' Hsheet' Hne)
    as (Hc2 & Hd2 & Hother & Hq2).
  fold twice in Hc2, Hd2, Hother, Hq2.
  rewrite Hc1, find_in_filtered in Hq2. rewrite Hc1, List_filter_idem in Hc2, Hd2.
  split; [|split; [|split; [done|]]].
  - intros n. destruct (decide (n = name)) as [->|Hn]; [congruence | by apply Hother].
  - intros n. destruct (decide (n = name)) as [->|Hn]; [congruence | by apply Hother].
  - subst twice. unfold executeDelete at 1. rewrite Hid', Hsheet'.
    apply String.eqb_neq in Hne. rewrite Hne. rewrite <- Hon.
    unfold queueDelete.
    destruct name; simpl;
      match goal with |- context [List.find ?f ?l] => destruct (List.find f l) end;
      simpl; destruct (navigator_onLine once); simpl; by rewrite ?app_nil_r.
Qed.

(** ** Sales, again *)

(** X16.  A sale of a product that the list of products does not hold.
    The sale is recorded all the same, at the head of the sales; no
    product is written, in memory or in the durable store, and no entry
    for the Products sheet is enqueued. *)
Theorem sale_of_unknown_product clk saleData customerData st :
  findIndex (λ p, strict_eq (get p "Name") (get saleData "ProductName")) (products st)
    = None →
  let st' := handleSaleSubmit clk saleData customerData st in
  products st' = products st ∧
  durable Products st' = durable Products st ∧
  (∀ e, e ∈ queueOf st' → sheet e = Products → e ∈ queueOf st) ∧
  ∃ sale, sales st' = sale :: sales st ∧
          durable Sales st' = sale :: sales st ∧
          (saleData !! "id" = None → get sale "id" = VStr (toString (saleNow clk))) ∧
          get sale "Date" = VStr (currentDateTime clk).
Proof.
  intros Hfind st'. subst st'. unfold handleSaleSubmit. rewrite Hfind.
  unfold durable, queueOf.
  destruct (List.find _ (customers st)) as [c|];
    match goal with |- context [if ?b then _ else _] => destruct b end; simpl.
  all: split; [done|]; split; [done|].
  all: split;
    [intros e He Hsheet;
     repeat (apply elem_of_merge_entry in He as [->|He]; [discriminate Hsheet|]);
     exact He|].
  all: eexists; split; [reflexivity|]; split; [reflexivity|].
  all: split; [intros Hno; get_simpl; rewrite get_union_None by done; by get_simpl|].
  all: by get_simpl.
Qed.

(** The stock that a sale writes, whatever the values involved. *)
Lemma sale_stock_update clk saleData customerData st i p :
  findIndex (λ p, strict_eq (get p "Name") (get saleData "ProductName")) (products st)
    = Some i →
  products st !! i = Some p →
  coherent Products st →
  get p "id" ≠ VNaN →
  let st' := handleSaleSubmit clk saleData customerData st in
  ∃ p', products st' !! i = Some p' ∧
        get p' "Stock" =
          Math_max0 (js_sub (get p "Stock") (get saleData "Quantity")).
Proof.
  intros Hfind Hp Hcoh Hid st'.
  unfold coherent, durable in Hcoh. simpl in Hcoh.
  subst st'. unfold handleSaleSubmit. rewrite Hfind, Hp.
  set (updatedProduct := <["ModifiedAt" := _]> (<["ID" := _]> (<["Stock" := _]> p))).
  assert (get updatedProduct "id" = get p "id") as Hsame
    by (subst updatedProduct; by get_simpl).
  exists updatedProduct.
  destruct (List.find _ (customers st)) as [c|];
    match goal with |- context [if ?b then _ else _] => destruct b end; simpl.
  all: rewrite <- Hcoh.
  all: split; [apply (replace_lookup _ p); [done|rewrite Hsame; by apply strict_eq_refl]|].
  all: subst updatedProduct; by get_simpl.
Qed.

(** X17.  A sale whose quantity, or whose product's stock, is not a
    number.  The stock that is written is not-a-number, not zero: the
    clamp at zero does not catch it.  From then on the product is neither
    out of stock nor low on stock, and the sale dialog opens on it. *)
Theorem sale_with_unusable_quantity clk saleData customerData st i p :
  findIndex (λ p, strict_eq (get p "Name") (get saleData "ProductName")) (products st)
    = Some i →
  products st !! i = Some p →
  coherent Products st →
  get p "id" ≠ VNaN →
  Number (get p "Stock") = VNaN ∨ Number (get saleData "Quantity") = VNaN →
  let st' := handleSaleSubmit clk saleData customerData st in
  ∃ p', products st' !! i = Some p' ∧
        get p' "Stock" = VNaN ∧
        isOutOfStock p' = false ∧
        isLowStock p' = false ∧
        ∀ m, isSaleModalOpen (openSaleModal p' m) = true.
Proof.
  intros Hfind Hp Hcoh Hid Hnan st'.
  destruct (sale_stock_update clk saleData customerData st i p Hfind Hp Hcoh Hid)
    as (p' & Hp' & Hstock).
  fold st' in Hp'. exists p'. split; [done|].
  assert (get p' "Stock" = VNaN) as Hnew.
  { rewrite Hstock. unfold Math_max0, js_sub.
    destruct Hnan as [-> | ->]; [done|]. by destruct (Number (get p "Stock")). }
  split; [done|].
  unfold isLowStock, isOutOfStock, openSaleModal, js_le, js_lt. by rewrite Hnew.
Qed.

(** ** The load effect, again *)

(** X18.  The load effect can run any number of times.  Running it a
    second time changes nothing: the collections and the count are read
    from the same durable store, and the initial pass, which the first
    run schedules when the browser is online, is not scheduled again. *)
Theorem load_effect_is_idempotent st :
  loadInitialData (loadInitialData st) = loadInitialData st.
Proof.
  destruct st as [? ? ? ? ? ? ? init ? ? ? ? online ? ? ?].
  destruct online, init; cbv -[length app]; reflexivity.
Qed.

(** X19.  React runs the load effect again after every change of the
    status.  On a state where the collections in memory agree with the
    durable store and the count with the queue, and where the initial
    pass is already scheduled or the browser is offline, the effect
    changes nothing at all. *)
Theorem reload_changes_nothing st :
  (∀ name, coherent name st) →
  counted st →
  isInitialized st = true ∨ navigator_onLine st = false →
  loadInitialData st = st.
Proof.
  intros Hcoh Hcnt Hinit.
  pose proof (Hcoh Products) as HP. pose proof (Hcoh Sales) as HS.
  pose proof (Hcoh Expenses) as HE. pose proof (Hcoh Customers) as HC.
  unfold coherent, durable, counted, queueOf, loadInitialData in *.
  destruct st as [? ? ? ? ? ? ? init ? ? ? ? online ? ? ?]. simpl in *.
  subst. destruct Hinit as [-> | ->]; rewrite ?andb_false_r; reflexivity.
Qed.

(** ** The summary of the sales *)

Lemma Number_cases v : (∃ z, Number v = VNum z) ∨ Number v = VNaN.
Proof.
  destruct v as [| |b|z| |s]; simpl; eauto.
  unfold StringToNumber. destruct s as [|a s]; [eauto|].
  repeat match goal with
         | |- context [if ?b then _ else _] => destruct b
         | |- context [match parse_digits ?x ?y with _ => _ end] =>
             destruct (parse_digits x y)
         end; eauto.
Qed.

(** [Number(s.Total) || 0] is a number. *)
Lemma totalOrZero_num s : ∃ z, totalOrZero s = VNum z.
Proof.
  unfold totalOrZero, js_or.
  destruct (Number_cases (get s "Total")) as [[z ->] | ->]; simpl; [|eauto].
  destruct (Z.eqb z 0); simpl; eauto.
Qed.

Lemma allTimeTotal_from (l : list Item) (a : Z) :
  ∃ z, fold_left (λ acc curr, num_add acc (totalOrZero curr)) l (VNum 0) = VNum z ∧
       fold_left (λ acc curr, num_add acc (totalOrZero curr)) l (VNum a) = VNum (a + z).
Proof.
  revert a. induction l as [|s l IH] using rev_ind; intros a.
  - exists 0%Z. simpl. split; [done|]. f_equal. lia.
  - destruct (IH a) as (z & H0 & Ha). destruct (totalOrZero_num s) as [t Ht].
    exists (z + t)%Z. rewrite !fold_left_app. simpl. rewrite H0, Ha, Ht. simpl.
    split; [done|]. f_equal. lia.
Qed.

Section SummaryFacts.

Variable dayOf : Value → string.
Variable todayStr : string.

Local Abbreviation saleDay := (saleDay dayOf).
Local Abbreviation todayTotal := (todayTotal dayOf todayStr).
Local Abbreviation getSalesSummary := (getSalesSummary dayOf todayStr).

Local Abbreviation todayStep :=
  (λ (acc : option Value) (s : Item),
     match acc, saleDay s with
     | Some acc, Some sDateStr =>
         if String.eqb sDateStr todayStr then Some (num_add acc (totalOrZero s))
         else Some acc
     | _, _ => None
     end).

Lemma todayStep_None l : fold_left todayStep l None = None.
Proof. induction l as [|s l IH]; [done|]. simpl. exact IH. Qed.

(** The two sums, side by side. *)
Lemma summary_fold (l : list Item) (a t : Z) :
  ∃ a', fold_left (λ acc curr, num_add acc (totalOrZero curr)) l (VNum a) = VNum a' ∧
        (fold_left todayStep l (Some (VNum t)) = None ∨
         ∃ t', fold_left todayStep l (Some (VNum t)) = Some (VNum t') ∧
               ((∀ s z, s ∈ l → totalOrZero s = VNum z → (0 ≤ z)%Z) →
                (t ≤ a)%Z → (a ≤ a')%Z ∧ (t ≤ t' ≤ a')%Z)).
Proof.
  revert a t. induction l as [|s l IH]; intros a t.
  - exists a. simpl. split; [done|]. right. exists t. split; [done|lia].
  - destruct (totalOrZero_num s) as [z Hz].
    simpl. rewrite Hz. simpl.
    destruct (saleDay s) as [d|].
    + destruct (String.eqb d todayStr).
      * destruct (IH (a + z)%Z (t + z)%Z) as (a' & Ha & Ht).
        exists a'. split; [done|].
        destruct Ht as [Ht | (t' & Ht & Hb)]; [by left|].
        right. exists t'. split; [done|]. intros Hpos Hle.
        assert (0 ≤ z)%Z as Hz0 by (apply (Hpos s); [by left | done]).
        destruct Hb as [H1 H2]; [intros s' z' Hs'; apply Hpos; by right | lia | lia].
      * destruct (IH (a + z)%Z t) as (a' & Ha & Ht).
        exists a'. split; [done|].
        destruct Ht as [Ht | (t' & Ht & Hb)]; [by left|].
        right. exists t'. split; [done|]. intros Hpos Hle.
        assert (0 ≤ z)%Z as Hz0 by (apply (Hpos s); [by left | done]).
        destruct Hb as [H1 H2]; [intros s' z' Hs'; apply Hpos; by right | lia | lia].
    + destruct (IH (a + z)%Z t) as (a' & Ha & _).
      exists a'. split; [done|]. left. apply todayStep_None.
Qed.

(** X20.  The two totals of the summary, when the summary is computed,
    in the integer model of numbers.  Both are integers whatever the
    sales hold, negative totals included: a total that is missing, or
    that is read as not-a-number, counts for zero.  If moreover no sale
    has a negative total, the total of the day is between zero and the
    total of all time. *)
Theorem summary_today_within_all_time st all today :
  getSalesSummary st = Some (all, today) →
  ∃ a t, all = VNum a ∧ today = VNum t ∧
         ((∀ s z, s ∈ sales st → totalOrZero s = VNum z → (0 ≤ z)%Z) →
          (0 ≤ t ≤ a)%Z).
Proof.
  unfold getSalesSummary, todayTotal, allTimeTotal. intros Hsum.
  destruct (summary_fold (sales st) 0 0) as (a & Ha & Ht).
  destruct Ht as [Ht | (t & Ht & Hb)]; rewrite Ht in Hsum; [done|].
  injection Hsum as <- <-. exists a, t. rewrite Ha. split; [done|]. split; [done|].
  intros Hpos. destruct (Hb Hpos) as [_ H]; lia.
Qed.

Lemma todayTotal_None_iff (l : list Item) (acc : Value) :
  fold_left todayStep l (Some acc) = None ↔ ∃ s, s ∈ l ∧ saleDay s = None.
Proof.
  revert acc. induction l as [|s l IH]; intros acc; simpl.
  - split; [done|]. intros (s & Hs & _). by apply elem_of_nil in Hs.
  - destruct (saleDay s) as [d|] eqn:Hd.
    + assert (∃ acc', (if String.eqb d todayStr
                       then Some (num_add acc (totalOrZero s)) else Some acc)
                      = Some acc') as [acc' ->]
        by (destruct (String.eqb d todayStr); eauto).
      rewrite IH. split.
      * intros (x & Hx & Hnone). exists x. split; [by right | done].
      * intros (x & [->|Hx]%elem_of_cons & Hnone); [congruence|]. by exists x.
    + rewrite todayStep_None. split; [|done]. intros _. exists s. split; [by left|done].
Qed.

(** X21.  When the summary fails.  The summary throws exactly when some
    sale has no usable timestamp and a date that is truthy without being
    a string, on which [split] cannot be called; in every other case it
    returns the two totals. *)
Theorem summary_throws_iff st :
  getSalesSummary st = None ↔
  ∃ s, s ∈ sales st ∧
       truthy (get s "timestamp") = false ∧
       truthy (get s "Date") = true ∧
       ∀ d, get s "Date" ≠ VStr d.
Proof.
  unfold getSalesSummary, todayTotal.
  destruct (fold_left _ (sales st) (Some (VNum 0))) as [today|] eqn:E.
  - split; [done|]. intros (s & Hs & Hts & Hdate & Hstr). exfalso.
    assert (fold_left todayStep (sales st) (Some (VNum 0)) = None) as Hnone.
    { apply todayTotal_None_iff. exists s. split; [done|].
      unfold saleDay. rewrite Hts, Hdate.
      destruct (get s "Date"); try done. by destruct (Hstr s0). }
    congruence.
  - split; [intros _|done].
    apply todayTotal_None_iff in E as (s & Hs & Hnone).
    exists s. split; [done|]. unfold saleDay in Hnone.
    destruct (truthy (get s "timestamp")); [done|].
    destruct (truthy (get s "Date")) eqn:Hd; [|done].
    repeat split. intros d Hd'. by rewrite Hd' in Hnone.
Qed.

End SummaryFacts.

(** X22.  Recording a sale adds its total to the total of all time,
    whatever the sales recorded before. *)
Theorem sale_adds_to_all_time_total clk saleData customerData st a :
  get saleData "Total" = VNum a →
  let st' := handleSaleSubmit clk saleData customerData st in
  ∃ z, allTimeTotal (sales st) = VNum z ∧ allTimeTotal (sales st') = VNum (z + a).
Proof.
  intros Htotal st'.
  assert (∃ sale, sales st' = sale :: sales st ∧ totalOrZero sale = VNum a)
    as (sale & Hsales & Hsale).
  { subst st'. unfold handleSaleSubmit.
    destruct (findIndex _ (products st)) as [i|]; [destruct (products st !! i)|];
      (destruct (List.find _ (customers st)) as [c|]);
      match goal with |- context [if ?b then _ else _] => destruct b end; simpl.
    all: eexists; split; [reflexivity|].
    all: unfold totalOrZero; get_simpl.
    all: rewrite get_union_l by (by rewrite Htotal).
    all: rewrite Htotal; unfold js_or; simpl; by destruct (Z.eqb_spec a 0) as [->|]. }
  unfold allTimeTotal. rewrite Hsales. cbn [fold_left]. rewrite Hsale.
  change (num_add (VNum 0) (VNum a)) with (VNum a).
  destruct (allTimeTotal_from (sales st) a) as (z & H0 & Ha).
  exists z. split; [done|]. rewrite Ha. f_equal. lia.
Qed.

(** ** The further statements at concrete inputs *)

Lemma pass_success_toast_witness :
  navigator_onLine nextMillisecondSale = true ∧
  (status nextMillisecondSale ≠ SYNCING ∨ true = true) ∧
  showSyncSuccess passOverSharedId.2 = true ∧
  length (undelivered (countingPost (Some Customers)) (queueOf nextMillisecondSale) 0%nat)
    = 1%nat.
Proof.
  assert (H1 : navigator_onLine nextMillisecondSale = true) by reflexivity.
  assert (H2 : status nextMillisecondSale ≠ SYNCING ∨ true = true) by (by right).
  destruct (pass_success_toast (countingPost (Some Customers))
              (countingFetch remoteRows None) notificationIds true None 0%nat
              nextMillisecondSale H1 H2) as (Hs & _).
  exact (conj H1 (conj H2 (conj Hs eq_refl))).
Defined.

Lemma pass_notifications_witness :
  navigator_onLine afterSecondSale = true ∧
  (status afterSecondSale ≠ SYNCING ∨ true = true) ∧
  (λ n, (n_id n, n_type n)) <$> notifications flakyPass.2 =
    [("notification-0", error); ("notification-1", warning)].
Proof.
  assert (H1 : navigator_onLine afterSecondSale = true) by reflexivity.
  assert (H2 : status afterSecondSale ≠ SYNCING ∨ true = true) by (by right).
  destruct (pass_notifications (countingPost (Some Products))
              (countingFetch remoteRows (Some Sales)) notificationIds true None 0%nat
              afterSecondSale H1 H2) as (Hn & _).
  exact (conj H1 (conj H2
           (eq_trans (f_equal (λ l, (λ n, (n_id n, n_type n)) <$> l) Hn) eq_refl))).
Defined.

Lemma targeted_pass_spares_other_sheets_witness :
  (Sales ∉ [Products]) ∧
  collection Sales productsPass.2 = collection Sales backOnline ∧
  durable Sales productsPass.2 = durable Sales backOnline.
Proof.
  assert (H1 : Sales ∉ [Products]) by (apply (bool_decide_unpack _); reflexivity).
  exact (conj H1
           (targeted_pass_spares_other_sheets (countingPost None)
              (countingFetch remoteRows None) notificationIds true [Products] 0%nat
              backOnline Sales H1)).
Defined.

Lemma notification_dismissal_round_trip_witness :
  Forall (λ n, n_id n ≠ notificationIds (notificationSeq flakyPass.2))
    (notifications flakyPass.2) ∧
  notifications
    (dismissNotification (notificationIds (notificationSeq flakyPass.2))
       (addNotification notificationIds "saved" success flakyPass.2))
  = notifications flakyPass.2.
Proof.
  assert (H1 : Forall (λ n, n_id n ≠ notificationIds (notificationSeq flakyPass.2))
                 (notifications flakyPass.2)).
  { apply (bool_decide_unpack _). by vm_compute. }
  destruct (notification_dismissal_round_trip notificationIds "saved" success
              flakyPass.2 H1) as (_ & Hback & _).
  exact (conj H1 Hback).
Defined.

Lemma edit_replaces_in_place_witness :
  restock !! "id" = None ∧
  coherent (activeTab bakery) bakery ∧
  length (products (handleSaveItem (saveClockAt 4000) restock
                      (openEditModal bread (bakery, closedModals)).1))
    = length (products bakery) ∧
  (λ x, get x "id") <$>
    products (handleSaveItem (saveClockAt 4000) restock
                (openEditModal bread (bakery, closedModals)).1)
    = (λ x, get x "id") <$> products bakery.
Proof.
  assert (H1 : restock !! "id" = None) by reflexivity.
  assert (H2 : coherent (activeTab bakery) bakery) by reflexivity.
  destruct (edit_replaces_in_place (saveClockAt 4000) restock bread bakery closedModals
              H1 H2) as (Hlen & Hids & _).
  exact (conj H1 (conj H2 (conj Hlen Hids))).
Defined.

Lemma edit_of_missing_record_witness :
  restock !! "id" = None ∧
  coherent (activeTab bakery) bakery ∧
  Forall (λ x, get x "id" ≠ get remoteRow "id") (collection (activeTab bakery) bakery) ∧
  products (handleSaveItem (saveClockAt 4000) restock
              (openEditModal remoteRow (bakery, closedModals)).1)
    = products bakery.
Proof.
  assert (H1 : restock !! "id" = None) by reflexivity.
  assert (H2 : coherent (activeTab bakery) bakery) by reflexivity.
  assert (H3 : Forall (λ x, get x "id" ≠ get remoteRow "id")
                 (collection (activeTab bakery) bakery)).
  { apply (bool_decide_unpack _). by vm_compute. }
  destruct (edit_of_missing_record (saveClockAt 4000) restock remoteRow bakery
              closedModals H1 H2 H3) as (Hsame & _).
  exact (conj H1 (conj H2 (conj H3 Hsame))).
Defined.

Lemma add_then_delete_witness :
  baguette !! "id" = None ∧
  Forall (λ x, get x "id" ≠ VStr (toString (idNow (saveClockAt 4000))))
    (collection (activeTab bakery) bakery) ∧
  products
    (executeDelete 5000
       (openDeleteModal (toString 4000) Products
          (handleSaveItem (saveClockAt 4000) baguette
             (openAddModal (bakery, closedModals)).1)))
    = products bakery.
Proof.
  assert (H1 : baguette !! "id" = None) by reflexivity.
  assert (H2 : Forall (λ x, get x "id" ≠ VStr (toString (idNow (saveClockAt 4000))))
                 (collection (activeTab bakery) bakery)).
  { apply (bool_decide_unpack _). by vm_compute. }
  destruct (add_then_delete (saveClockAt 4000) baguette 5000 bakery closedModals H1 H2)
    as (Hsame & _).
  exact (conj H1 (conj H2 Hsame)).
Defined.

Lemma second_confirmation_deletes_nothing_witness :
  dc_id (deleteConfirmation deletingBread) = Some "1" ∧
  dc_sheet (deleteConfirmation deletingBread) = Some Products ∧
  "1" ≠ "" ∧
  queueOf (executeDelete 10 (executeDelete 9 deletingBread))
    = queueOf (executeDelete 9 deletingBread).
Proof.
  assert (H1 : dc_id (deleteConfirmation deletingBread) = Some "1") by reflexivity.
  assert (H2 : dc_sheet (deleteConfirmation deletingBread) = Some Products)
    by reflexivity.
  assert (H3 : "1" ≠ "") by done.
  destruct (second_confirmation_deletes_nothing 9 10 deletingBread "1" Products H1 H2 H3)
    as (_ & _ & Hq & _).
  exact (conj H1 (conj H2 (conj H3 Hq))).
Defined.

Lemma sale_of_unknown_product_witness :
  findIndex (λ p, strict_eq (get p "Name") (get saleOfCake "ProductName"))
    (products bakery) = None ∧
  products (handleSaleSubmit (clockAt 1000) saleOfCake (buyer 20) bakery)
    = products bakery.
Proof.
  assert (H1 : findIndex (λ p, strict_eq (get p "Name") (get saleOfCake "ProductName"))
                 (products bakery) = None) by reflexivity.
  destruct (sale_of_unknown_product (clockAt 1000) saleOfCake (buyer 20) bakery H1)
    as (Hsame & _).
  exact (conj H1 Hsame).
Defined.

Lemma sale_with_unusable_quantity_witness :
  findIndex (λ p, strict_eq (get p "Name") (get saleWithoutQuantity "ProductName"))
    (products bakery) = Some 0%nat ∧
  products bakery !! 0%nat = Some bread ∧
  coherent Products bakery ∧
  get bread "id" ≠ VNaN ∧
  (Number (get bread "Stock") = VNaN ∨
   Number (get saleWithoutQuantity "Quantity") = VNaN) ∧
  ∃ p', products (handleSaleSubmit (clockAt 1000) saleWithoutQuantity (buyer 50) bakery)
          !! 0%nat = Some p' ∧
        get p' "Stock" = VNaN ∧
        isOutOfStock p' = false.
Proof.
  assert (H1 : findIndex
                 (λ p, strict_eq (get p "Name") (get saleWithoutQuantity "ProductName"))
                 (products bakery) = Some 0%nat) by reflexivity.
  assert (H2 : products bakery !! 0%nat = Some bread) by reflexivity.
  assert (H3 : coherent Products bakery) by reflexivity.
  assert (H4 : get bread "id" ≠ VNaN) by (by vm_compute).
  assert (H5 : Number (get bread "Stock") = VNaN ∨
               Number (get saleWithoutQuantity "Quantity") = VNaN) by (by right).
  destruct (sale_with_unusable_quantity (clockAt 1000) saleWithoutQuantity (buyer 50)
              bakery 0%nat bread H1 H2 H3 H4 H5) as (p' & Hp' & Hstock & Hout & _).
  exact (conj H1 (conj H2 (conj H3 (conj H4 (conj H5
           (ex_intro _ p' (conj Hp' (conj Hstock Hout)))))))).
Defined.

Lemma reload_changes_nothing_witness :
  (∀ name, coherent name reloaded) ∧
  counted reloaded ∧
  (isInitialized reloaded = true ∨ navigator_onLine reloaded = false) ∧
  loadInitialData reloaded = reloaded.
Proof.
  assert (H1 : ∀ name, coherent name reloaded) by (intros []; reflexivity).
  assert (H2 : counted reloaded) by reflexivity.
  assert (H3 : isInitialized reloaded = true ∨ navigator_onLine reloaded = false)
    by (left; reflexivity).
  exact (conj H1 (conj H2 (conj H3 (reload_changes_nothing reloaded H1 H2 H3)))).
Defined.

Lemma summary_today_within_all_time_witness :
  getSalesSummary sameDay "01/01/2026" refunded = Some (VNum (-5), VNum (-5)) ∧
  (∃ a t, VNum (-5) = VNum a ∧ VNum (-5) = VNum t) ∧
  getSalesSummary sameDay "01/01/2026" afterSecondSale = Some (VNum 80, VNum 80) ∧
  (∀ s z, s ∈ sales afterSecondSale → totalOrZero s = VNum z → (0 ≤ z)%Z) ∧
  ∃ a t, VNum 80 = VNum a ∧ VNum 80 = VNum t ∧ (0 ≤ t ≤ a)%Z.
Proof.
  assert (H0 : getSalesSummary sameDay "01/01/2026" refunded
               = Some (VNum (-5), VNum (-5))) by reflexivity.
  destruct (summary_today_within_all_time sameDay "01/01/2026" refunded
              (VNum (-5)) (VNum (-5)) H0) as (a0 & t0 & Ha0 & Ht0 & _).
  assert (H1 : getSalesSummary sameDay "01/01/2026" afterSecondSale
               = Some (VNum 80, VNum 80)) by reflexivity.
  assert (H2 : ∀ s z, s ∈ sales afterSecondSale → totalOrZero s = VNum z → (0 ≤ z)%Z).
  { intros s z Hs Hz.
    assert (Forall (λ s, totalOrZero s = VNum 30 ∨ totalOrZero s = VNum 50)
              (sales afterSecondSale)) as Hall
      by (repeat constructor; by vm_compute).
    rewrite Forall_forall in Hall. destruct (Hall s Hs) as [E|E];
      rewrite E in Hz; injection Hz as <-; lia. }
  destruct (summary_today_within_all_time sameDay "01/01/2026" afterSecondSale
              (VNum 80) (VNum 80) H1) as (a & t & Ha & Ht & Hle).
  exact (conj H0 (conj (ex_intro _ a0 (ex_intro _ t0 (conj Ha0 Ht0)))
           (conj H1 (conj H2
              (ex_intro _ a (ex_intro _ t (conj Ha (conj Ht (Hle H2))))))))).
Defined.

Lemma sale_adds_to_all_time_total_witness :
  get (saleOf 20 30) "Total" = VNum 30 ∧
  ∃ z, allTimeTotal (sales afterFirstSale) = VNum z ∧
       allTimeTotal (sales afterSecondSale) = VNum (z + 30).
Proof.
  assert (H1 : get (saleOf 20 30) "Total" = VNum 30) by reflexivity.
  exact (conj H1
           (sale_adds_to_all_time_total (clockAt 2000) (saleOf 20 30) (buyer 30)
              afterFirstSale 30 H1)).
Defined.

Lemma two_sales_same_phone_witness :
  List.find (λ c, strict_eq (get c "Phone") (VStr "0600000000")) (customers bakery)
    = None ∧
  coherent Customers bakery ∧
  ∃ c, customers afterSecondSale = c :: customers bakery ∧
       get c "Phone" = VStr "0600000000" ∧
       get c "TotalPurchases" = VNum (50 + 30).
Proof.
  assert (H1 : List.find (λ c, strict_eq (get c "Phone") (VStr "0600000000"))
                 (customers bakery) = None) by reflexivity.
  assert (H2 : coherent Customers bakery) by reflexivity.
  assert (H3 : get (buyer 50) "Phone" = VStr "0600000000") by reflexivity.
  assert (H4 : get (buyer 30) "Phone" = VStr "0600000000") by reflexivity.
  assert (H5 : buyer 50 !! "id" = None) by reflexivity.
  assert (H6 : Forall (λ r, get r "id" ≠ VStr (toString (saleNow (clockAt 1000) + 1)))
                 (customers bakery)) by constructor.
  assert (H7 : get (buyer 50) "TotalPurchases" = VNum 50) by reflexivity.
  assert (H8 : get (saleOf 20 30) "Total" = VNum 30) by reflexivity.
  exact (conj H1 (conj H2
           (two_sales_same_phone (clockAt 1000) (clockAt 2000) (saleOf 3 50) (saleOf 20 30)
              (buyer 50) (buyer 30) bakery "0600000000" 50 30
              H1 H2 H3 H4 H5 H6 H7 H8))).
Defined.
